(** * A model of package [inmemorydb] of vladgrskkh/todo

    Shallow embedding of [pkg/inmemorydb/entry.go], [pkg/inmemorydb/inmemorydb.go]
    and the file-handling half of the package ([load], [Close], [Shrink],
    [appendEntry]).  The Go standard-library pieces the package relies on
    ([encoding/base64.StdEncoding], [strings.Split], [bufio.Scanner] with
    [bufio.ScanLines], [bufio.Writer]) are modelled from their documented
    behaviour. *)

From Stdlib Require Import Ascii String Init.Byte Strings.Byte.
From Stdlib Require Import ZArith.
From stdpp Require Import base gmap list strings.

Local Open Scope string_scope.

(* ------------------------------------------------------------------ *)
(** ** Errors *)

(** The sentinel errors of the package, the errors of the Go library calls
    the package makes, and [fmt.Errorf("...: %w", err)] wrapping. *)
Inductive error :=
  | ErrNotFound
  | ErrAlreadyExists
  | ErrInvalidType
  | ErrClose
  | ErrBadFormat
  | ErrCannotDecode
  | CorruptInputError      (* base64.CorruptInputError; the offset is not kept *)
  | ErrTooLong             (* bufio.ErrTooLong *)
  | IOError (op : string)  (* an *os.PathError / syscall error from the OS *)
  | Wrapf (msg : string) (e : error).

(** [errors.Is(err, target)] for the comparable sentinel errors. *)
Fixpoint Is (err target : error) : bool :=
  match err with
  | Wrapf _ e => Is e target
  | _ =>
      match err, target with
      | ErrNotFound, ErrNotFound | ErrAlreadyExists, ErrAlreadyExists
      | ErrInvalidType, ErrInvalidType | ErrClose, ErrClose
      | ErrBadFormat, ErrBadFormat | ErrCannotDecode, ErrCannotDecode
      | CorruptInputError, CorruptInputError | ErrTooLong, ErrTooLong => true
      | IOError a, IOError b => String.eqb a b
      | _, _ => false
      end
  end.

(** A Go pair [(T, error)]: either the value or a non-nil error. *)
Inductive result (A : Type) :=
  | Ok (a : A)
  | Err (e : error).
Arguments Ok {A} a.
Arguments Err {A} e.

(* ------------------------------------------------------------------ *)
(** ** encoding/base64, StdEncoding (standard alphabet, '=' padding) *)

Module Base64.

(** The value of a 6-bit group, most significant bit first. *)
Definition sextet (b5 b4 b3 b2 b1 b0 : bool) : nat :=
  32 * Nat.b2n b5 + 16 * Nat.b2n b4 + 8 * Nat.b2n b3
  + 4 * Nat.b2n b2 + 2 * Nat.b2n b1 + Nat.b2n b0.

(** [encodeStd]: "ABC...Zabc...z0123456789+/". *)
Definition encodeStd (v : nat) : ascii :=
  if Nat.ltb v 26 then ascii_of_nat (65 + v)
  else if Nat.ltb v 52 then ascii_of_nat (97 + (v - 26))
  else if Nat.ltb v 62 then ascii_of_nat (48 + (v - 52))
  else if Nat.eqb v 62 then "+"%char else "/"%char.

Definition char (b5 b4 b3 b2 b1 b0 : bool) : ascii :=
  encodeStd (sextet b5 b4 b3 b2 b1 b0).

(** The decode map: the value of an alphabet character, [None] (0xFF in Go)
    for any other byte, the padding character included. *)
Definition decodeMap (c : ascii) : option nat :=
  let n := nat_of_ascii c in
  if Nat.leb 65 n && Nat.leb n 90 then Some (n - 65)
  else if Nat.leb 97 n && Nat.leb n 122 then Some (n - 97 + 26)
  else if Nat.leb 48 n && Nat.leb n 57 then Some (n - 48 + 52)
  else if Nat.eqb n 43 then Some 62
  else if Nat.eqb n 47 then Some 63
  else None.

Definition bit (v i : nat) : bool := Nat.testbit v i.

(** Encoding: every 3 bytes become 4 characters; a final group of 1 or 2
    bytes is padded with "==" or "=". A byte [Ascii a0 .. a7] lists its bits
    from the least significant one. *)
Fixpoint encode (l : list ascii) : string :=
  match l with
  | Ascii a0 a1 a2 a3 a4 a5 a6 a7 :: Ascii b0 b1 b2 b3 b4 b5 b6 b7
      :: Ascii c0 c1 c2 c3 c4 c5 c6 c7 :: r =>
      String (char a7 a6 a5 a4 a3 a2) (String (char a1 a0 b7 b6 b5 b4)
        (String (char b3 b2 b1 b0 c7 c6) (String (char c5 c4 c3 c2 c1 c0)
          (encode r))))
  | [Ascii a0 a1 a2 a3 a4 a5 a6 a7; Ascii b0 b1 b2 b3 b4 b5 b6 b7] =>
      String (char a7 a6 a5 a4 a3 a2) (String (char a1 a0 b7 b6 b5 b4)
        (String (char b3 b2 b1 b0 false false) (String "=" EmptyString)))
  | [Ascii a0 a1 a2 a3 a4 a5 a6 a7] =>
      String (char a7 a6 a5 a4 a3 a2) (String (char a1 a0 false false false false)
        (String "=" (String "=" EmptyString)))
  | _ => EmptyString
  end.

Definition EncodeToString (src : list byte) : string :=
  encode (map ascii_of_byte src).

(** The bytes of a decoded quantum (non-strict mode: the unused low bits of
    a padded quantum are ignored). *)
Definition byte1 (v1 v2 : nat) : ascii :=
  Ascii (bit v2 4) (bit v2 5) (bit v1 0) (bit v1 1) (bit v1 2) (bit v1 3)
        (bit v1 4) (bit v1 5).
Definition byte2 (v2 v3 : nat) : ascii :=
  Ascii (bit v3 2) (bit v3 3) (bit v3 4) (bit v3 5) (bit v2 0) (bit v2 1)
        (bit v2 2) (bit v2 3).
Definition byte3 (v3 v4 : nat) : ascii :=
  Ascii (bit v4 0) (bit v4 1) (bit v4 2) (bit v4 3) (bit v4 4) (bit v4 5)
        (bit v3 0) (bit v3 1).

Definition is_pad (c : ascii) : bool := Ascii.eqb c "=".

(** [decodeQuantum], run over input from which '\r' and '\n' have been
    removed (the decoder skips them wherever they occur). A quantum is 4
    characters; padding may only close the last one, as "xx==" or "xxx=";
    an incomplete quantum is an error since StdEncoding pads. *)
Fixpoint decode (s : string) : option (list ascii) :=
  match s with
  | EmptyString => Some []
  | String c1 (String c2 (String c3 (String c4 r))) =>
      match decodeMap c1, decodeMap c2 with
      | Some v1, Some v2 =>
          if is_pad c3 then
            if is_pad c4 then
              match r with EmptyString => Some [byte1 v1 v2] | _ => None end
            else None
          else
            match decodeMap c3 with
            | None => None
            | Some v3 =>
                if is_pad c4 then
                  match r with
                  | EmptyString => Some [byte1 v1 v2; byte2 v2 v3]
                  | _ => None
                  end
                else
                  match decodeMap c4 with
                  | None => None
                  | Some v4 =>
                      match decode r with
                      | None => None
                      | Some rest => Some (byte1 v1 v2 :: byte2 v2 v3 :: byte3 v3 v4 :: rest)
                      end
                  end
            end
      | _, _ => None
      end
  | _ => None
  end.

Definition is_newline (c : ascii) : bool :=
  Ascii.eqb c "010"%char || Ascii.eqb c "013"%char.

Fixpoint strip_newlines (s : string) : string :=
  match s with
  | EmptyString => EmptyString
  | String c r => if is_newline c then strip_newlines r else String c (strip_newlines r)
  end.

Definition DecodeString (s : string) : result (list byte) :=
  match decode (strip_newlines s) with
  | Some l => Ok (map byte_of_ascii l)
  | None => Err CorruptInputError
  end.

End Base64.

(* ------------------------------------------------------------------ *)
(** ** strings.Split with a one-byte separator *)

(** [strings.Split(s, sep)]: the [n+1] pieces around the [n] occurrences
    of [sep]; [Split("", sep) = [""]]. *)
Fixpoint Split (s : string) (sep : ascii) : list string :=
  match s with
  | EmptyString => [EmptyString]
  | String c r =>
      if Ascii.eqb c sep then EmptyString :: Split r sep
      else match Split r sep with
           | p :: ps => String c p :: ps
           | [] => [String c EmptyString]
           end
  end.

(* ------------------------------------------------------------------ *)
(** ** entry.go *)

(** [type action string] *)
Definition action := string.

Definition Put : action := "put".
Definition Del : action := "del".

Record entry := newEntry {
  e_action : action;
  e_key : string;
  e_value : list byte
}.

(** [newEntryFromLine]: split on ',', require three elements, base64-decode
    the key and the value. The action is taken as is. *)
Definition newEntryFromLine (line : string) : result entry :=
  match Split line "," with
  | [a; k; v] =>
      match Base64.DecodeString k with
      | Err err => Err (Wrapf "inmemorydb: unable to decode key" err)
      | Ok key =>
          match Base64.DecodeString v with
          | Err err => Err (Wrapf "inmemorydb: unable to decode value" err)
          | Ok value => Ok (newEntry a (string_of_list_byte key) value)
          end
      end
  | _ => Err ErrBadFormat
  end.

(** [toBytes]: [fmt.Appendf(nil, "%s,%s,%s\n", action, b64(key), b64(value))]. *)
Definition toBytes (e : entry) : string :=
  e_action e ++ "," ++ Base64.EncodeToString (list_byte_of_string (e_key e))
  ++ "," ++ Base64.EncodeToString (e_value e) ++ String "010" EmptyString.


(* ------------------------------------------------------------------ *)
(** ** bufio.Scanner with bufio.ScanLines *)

(** [bufio.MaxScanTokenSize = 64 * 1024]: the scanner's buffer never grows
    beyond it, and a line that does not fit in it (with its '\n') stops the
    scan with [ErrTooLong]. *)
Definition MaxScanTokenSize : nat := 64 * 1024.

(** [dropCR]: a final '\r' is removed from each line. *)
Fixpoint dropCR (s : string) : string :=
  match s with
  | EmptyString => EmptyString
  | String c EmptyString => if Ascii.eqb c "013" then EmptyString else s
  | String c r => String c (dropCR r)
  end.

(** The raw lines [ScanLines] cuts the file into: the pieces between
    '\n's, without the empty piece after a final '\n'. *)
Definition raw_lines (contents : string) : list string :=
  let pieces := Split contents "010" in
  match last pieces with
  | Some EmptyString => removelast pieces
  | _ => pieces
  end.

(* ------------------------------------------------------------------ *)
(** ** The database state *)

(** The file system: path -> contents. *)
Abbreviation FS := (gmap string string).

(** [type DB struct]. [file] is the path the descriptor [db.file] was opened
    on ([None] for nil), [fd_open] whether that descriptor is still open;
    [wbuf] and [werr] are the buffered bytes and the sticky error of
    [db.writer]. [locked] records the write lock of [db.mutex] being held
    by a call that returned without releasing it. *)
Record DB := mkDB {
  FilePath : string;
  closed : bool;
  data : gmap string (list byte);
  locked : bool;
  file : option string;
  fd_open : bool;
  wbuf : string;
  werr : option error
}.

Definition set_data (d : DB) m : DB :=
  mkDB (FilePath d) (closed d) m (locked d) (file d) (fd_open d) (wbuf d) (werr d).
Definition set_writer (d : DB) b e : DB :=
  mkDB (FilePath d) (closed d) (data d) (locked d) (file d) (fd_open d) b e.
Definition set_fd_open (d : DB) o : DB :=
  mkDB (FilePath d) (closed d) (data d) (locked d) (file d) o (wbuf d) (werr d).
Definition set_locked (d : DB) l : DB :=
  mkDB (FilePath d) (closed d) (data d) l (file d) (fd_open d) (wbuf d) (werr d).
(** A fresh descriptor on [p] with a new [bufio.Writer] on it. *)
Definition set_file (d : DB) p : DB :=
  mkDB (FilePath d) (closed d) (data d) (locked d) (Some p) true EmptyString None.

Record world := mkWorld { fs : FS; db : DB }.

(** The outcome of each kind of system call: [None] for success. The same
    outcome is used for every call of that kind within one operation. *)
Record IOEnv := mkIOEnv {
  create_res : option error;
  open_res : option error;
  close_res : option error;
  rename_res : option error;
  write_res : option error;
  flush_res : option error
}.

Definition env_ok : IOEnv := mkIOEnv None None None None None None.

(** A call either returns a value with the new world, or blocks forever on
    [db.mutex]. *)
Inductive outcome (A : Type) :=
  | Blocked
  | Done (a : A) (w : world).
Arguments Blocked {A}.
Arguments Done {A} a w.

(* ------------------------------------------------------------------ *)
(** ** bufio.Writer and *os.File *)

(** [writer.Write(p)]: a sticky error is returned at once; otherwise the
    bytes go to the buffer. The flushes [Write] itself performs when the
    buffer fills are folded into [Flush]: the byte stream that reaches the
    file is the same, and their failures are [write_res]. So the file
    system of the model lags the real one: a write that does not fit in
    the 4096-byte buffer reaches the real file at once, but here only at
    [Flush]. Statements about the log are therefore made over the file
    followed by the buffer. [write_res] also lets a write that fits in the
    buffer fail, which the real writer never does. *)
Definition writer_Write (env : IOEnv) (d : DB) (p : string) : option error * DB :=
  match werr d with
  | Some e => (Some e, d)
  | None =>
      match write_res env with
      | Some e => (Some e, set_writer d (wbuf d) (Some e))
      | None => (None, set_writer d (wbuf d ++ p) None)
      end
  end.

(** [writer.Flush()]: sticky error first; nothing to do on an empty
    buffer; otherwise the buffer is written to the file. *)
Definition writer_Flush (env : IOEnv) (fs0 : FS) (d : DB) : option error * FS * DB :=
  match werr d with
  | Some e => (Some e, fs0, d)
  | None =>
      match wbuf d with
      | EmptyString => (None, fs0, d)
      | _ =>
          match file d with
          | None => (Some (IOError "invalid argument"), fs0, d)
          | Some p =>
              if negb (fd_open d) then
                let e := IOError "write: file already closed" in
                (Some e, fs0, set_writer d (wbuf d) (Some e))
              else
                match flush_res env with
                | Some e => (Some e, fs0, set_writer d (wbuf d) (Some e))
                | None =>
                    (None, <[p := default EmptyString (fs0 !! p) ++ wbuf d]> fs0,
                     set_writer d EmptyString None)
                end
          end
      end
  end.

(** [file.Close()]: the descriptor is released whatever the result. *)
Definition file_Close (env : IOEnv) (d : DB) : option error * DB :=
  if fd_open d then (close_res env, set_fd_open d false)
  else (Some (IOError "close: file already closed"), d).

(** [appendEntry] *)
Definition appendEntry (env : IOEnv) (d : DB) (e : entry) : option error * DB :=
  writer_Write env d (toBytes e).


(* ------------------------------------------------------------------ *)
(** ** inmemorydb.go: the public operations *)

Section Operations.
Variable env : IOEnv.

(** [PutObject]: Lock; closed check; existence check; map update; append. *)
Definition PutObject (key : string) (value : list byte) (w : world) : outcome (option error) :=
  let d := db w in
  if locked d then Blocked
  else if closed d then Done (Some ErrClose) w
  else match data d !! key with
       | Some _ => Done (Some ErrAlreadyExists) w
       | None =>
           let d1 := set_data d (<[key := value]> (data d)) in
           let '(err, d2) := appendEntry env d1 (newEntry Put key value) in
           Done err (mkWorld (fs w) d2)
       end.

(** [GetObject] *)
Definition GetObject (key : string) (w : world) : outcome (result (list byte)) :=
  let d := db w in
  if locked d then Blocked
  else if closed d then Done (Err ErrClose) w
  else match data d !! key with
       | None => Done (Err ErrNotFound) w
       | Some v => Done (Ok v) w
       end.

(** [DeleteObject] *)
Definition DeleteObject (key : string) (w : world) : outcome (option error) :=
  let d := db w in
  if locked d then Blocked
  else if closed d then Done (Some ErrClose) w
  else match data d !! key with
       | None => Done (Some ErrNotFound) w
       | Some _ =>
           let d1 := set_data d (delete key (data d)) in
           let '(err, d2) := appendEntry env d1 (newEntry Del key []) in
           Done err (mkWorld (fs w) d2)
       end.

(** [Has] *)
Definition Has (key : string) (w : world) : outcome bool :=
  let d := db w in
  if locked d then Blocked
  else if closed d then Done false w
  else Done (bool_decide (is_Some (data d !! key))) w.

(** [Clear]: no closed check; the map is replaced by an empty one. *)
Definition Clear (w : world) : outcome unit :=
  let d := db w in
  if locked d then Blocked
  else Done tt (mkWorld (fs w) (set_data d ∅)).

(** [Size]: no closed check. *)
Definition Size (w : world) : outcome nat :=
  let d := db w in
  if locked d then Blocked
  else Done (size (data d)) w.

(* ------------------------------------------------------------------ *)
(** ** The file half of the package: load, Close, Shrink *)

(** [Close]. On a flush error it returns with the mutex still locked and
    without marking the database closed. *)
Definition Close (w : world) : outcome (option error) :=
  let d := db w in
  if locked d then Blocked
  else if closed d then Done (Some ErrClose) w
  else
    let '(errFlush, fs1, d1) := writer_Flush env (fs w) d in
    let '(errClose, d2) := file_Close env d1 in
    match errFlush with
    | Some e =>
        Done (Some (Wrapf "inmemorydb: unable to flush writer" e))
             (mkWorld fs1 (set_locked d2 true))
    | None =>
        let d3 := mkDB (FilePath d2) true (data d2) false None false EmptyString None in
        (* db.Clear() *)
        let d4 := set_data d3 ∅ in
        match errClose with
        | Some e => Done (Some (Wrapf "inmemorydb: unable to close file" e)) (mkWorld fs1 d4)
        | None => Done None (mkWorld fs1 d4)
        end
    end.

(** The [for key, value := range db.data] loop of [Shrink]. Go visits the
    map in an unspecified order; the model visits [map_to_list]. *)
Fixpoint shrink_loop (kvs : list (string * list byte)) (d : DB) : option error * DB :=
  match kvs with
  | [] => (None, d)
  | (k, v) :: rest =>
      match appendEntry env d (newEntry Put k v) with
      | (Some e, d1) => (Some (Wrapf "inmemorydb: unable to append entry" e), d1)
      | (None, d1) => shrink_loop rest d1
      end
  end.

(** [Shrink]: close the file, rename it to [FilePath.bak], create a new
    file at [FilePath], and append one Put per live key. *)
Definition Shrink (fs0 : FS) (d : DB) : option error * FS * DB :=
  let path := FilePath d in
  match file_Close env d with
  | (Some e, d1) =>
      (Some (Wrapf "inmemorydb: unable to close file while shrinking" e), fs0, d1)
  | (None, d1) =>
      match rename_res env, fs0 !! path with
      | Some e, _ => (Some (Wrapf "inmemorydb: unable to rename while shrinking" e), fs0, d1)
      | None, None =>
          (Some (Wrapf "inmemorydb: unable to rename while shrinking"
                   (IOError "rename: no such file or directory")), fs0, d1)
      | None, Some contents =>
          let fs1 := <[path ++ ".bak" := contents]> (delete path fs0) in
          match create_res env with
          | Some e => (Some (Wrapf "inmemorydb: unable to create file while shrinking" e), fs1, d1)
          | None =>
              let fs2 := <[path := EmptyString]> fs1 in
              let '(err, d2) := shrink_loop (map_to_list (data d1)) (set_file d1 path) in
              (err, fs2, d2)
          end
      end
  end.

(** The scan loop of [load]: each line is decoded and applied to the map;
    a line too long for the scanner's buffer ends the scan with an error. *)
Fixpoint replay (lines : list string) (m : gmap string (list byte)) : result (gmap string (list byte)) :=
  match lines with
  | [] => Ok m
  | l :: rest =>
      if Nat.leb MaxScanTokenSize (String.length l)
      then Err (Wrapf "inmemorydb: failed to scan file" ErrTooLong)
      else
        match newEntryFromLine (dropCR l) with
        | Err e => Err (Wrapf "inmemorydb: error reading entry at line" e)
        | Ok en =>
            if String.eqb (e_action en) Put then replay rest (<[e_key en := e_value en]> m)
            else if String.eqb (e_action en) Del then replay rest (delete (e_key en) m)
            else Err ErrBadFormat
        end
  end.

(** [load]: create the file if it does not exist; otherwise replay it and
    compact it. *)
Definition load (fs0 : FS) (d : DB) : option error * FS * DB :=
  let path := FilePath d in
  match fs0 !! path with
  | None =>
      match create_res env with
      | Some e => (Some (Wrapf "inmemorydb: failed file creation" e), fs0, d)
      | None => (None, <[path := EmptyString]> fs0, set_file d path)
      end
  | Some contents =>
      match open_res env with
      | Some e => (Some (Wrapf "inmemorydb: failed file opening" e), fs0, d)
      | None =>
          let d1 := set_file d path in
          match replay (raw_lines contents) (data d1) with
          | Err e => (Some e, fs0, d1)
          | Ok m => Shrink fs0 (set_data d1 m)
          end
      end
  end.

(** [Open] *)
Definition Open (filePath : string) (fs0 : FS) : result DB * FS :=
  let d0 := mkDB filePath false ∅ false None false EmptyString None in
  match load fs0 d0 with
  | (Some e, fs1, _) => (Err (Wrapf "inmemorydb: failed to load database" e), fs1)
  | (None, fs1, d) => (Ok d, fs1)
  end.

End Operations.

(* ------------------------------------------------------------------ *)
(** ** internal/domain and internal/repository: the store's caller *)

(** [strconv.FormatInt(i, 10)]: an optional '-' and the decimal digits of
    [|i|], most significant first. [fuel] bounds the number of digits; the
    bit length of [n], plus one, is always enough. *)
Fixpoint format_digits (fuel : nat) (n : N) (acc : string) : string :=
  match fuel with
  | O => acc
  | S f =>
      let acc' := String (ascii_of_N (48 + N.modulo n 10)%N) acc in
      if N.ltb n 10 then acc' else format_digits f (N.div n 10) acc'
  end.

Definition FormatUint (n : N) : string := format_digits (S (N.size_nat n)) n EmptyString.

Definition FormatInt (i : Z) : string :=
  if Z.ltb i 0 then String "-" (FormatUint (Z.to_N (Z.opp i))) else FormatUint (Z.to_N i).

(** [domain.Task] *)
Module domain.
Record Task := NewTask {
  ID : Z;
  Title : string;
  Description : string;
  Done : bool
}.
End domain.

(** The errors a [TaskRepo] method returns: the repository's own sentinels,
    or an error of the store or of [encoding/gob] returned as it is. *)
Inductive repo_error :=
  | RepoErrNotFound
  | RepoErrEditConflict
  | RepoErrAlreadyExists
  | Passed (e : error).

(** [TaskRepo]. [encoding/gob] is not modelled: its encoder and decoder are
    parameters, so every statement about these methods holds for any
    encoding. [GetAll] calls [GetAllObjects], which the package does not
    define, and is left out. *)
Module TaskRepo.
Section Repo.
Variable env : IOEnv.
Variable gob_encode : domain.Task -> result (list byte).
Variable gob_decode : list byte -> result domain.Task.

(** [Get]: [ErrNotFound] of the store becomes the repository's own. *)
Definition Get (id : Z) (w : world) : outcome (domain.Task + repo_error) :=
  match GetObject (FormatInt id) w with
  | Blocked => Blocked
  | Done (Err e) w1 => Done (inr (if Is e ErrNotFound then RepoErrNotFound else Passed e)) w1
  | Done (Ok obj) w1 =>
      match gob_decode obj with
      | Err e => Done (inr (Passed e)) w1
      | Ok t => Done (inl t) w1
      end
  end.

(** [Insert]: encode, then [PutObject] under the decimal id. *)
Definition Insert (task : domain.Task) (w : world) : outcome (option repo_error) :=
  match gob_encode task with
  | Err e => Done (Some (Passed e)) w
  | Ok buf =>
      match PutObject env (FormatInt (domain.ID task)) buf w with
      | Blocked => Blocked
      | Done None w1 => Done None w1
      | Done (Some e) w1 => Done (Some (Passed e)) w1
      end
  end.

(** [Update]: the same code as [Insert]. *)
Definition Update (task : domain.Task) (w : world) : outcome (option repo_error) :=
  match gob_encode task with
  | Err e => Done (Some (Passed e)) w
  | Ok buf =>
      match PutObject env (FormatInt (domain.ID task)) buf w with
      | Blocked => Blocked
      | Done None w1 => Done None w1
      | Done (Some e) w1 => Done (Some (Passed e)) w1
      end
  end.

(** [Delete]: [ErrNotFound] of the store becomes the repository's own. *)
Definition Delete (id : Z) (w : world) : outcome (option repo_error) :=
  match DeleteObject env (FormatInt id) w with
  | Blocked => Blocked
  | Done None w1 => Done None w1
  | Done (Some e) w1 => Done (Some (if Is e ErrNotFound then RepoErrNotFound else Passed e)) w1
  end.

End Repo.
End TaskRepo.



(* ------------------------------------------------------------------ *)
(** ** Helpers for stating properties of the log *)

(** A string none of whose characters satisfies [p]. *)
Fixpoint string_forall (p : ascii -> bool) (s : string) : bool :=
  match s with
  | EmptyString => true
  | String c r => p c && string_forall p r
  end.

Definition no_sep (sep : ascii) (s : string) : bool :=
  string_forall (fun c => negb (Ascii.eqb c sep)) s.

(** The line [toBytes] writes, without its terminating newline. *)
Definition line_of (e : entry) : string :=
  e_action e ++ "," ++ Base64.EncodeToString (list_byte_of_string (e_key e))
  ++ "," ++ Base64.EncodeToString (e_value e).

Definition join (ls : list string) : string := foldr String.append EmptyString ls.

Definition terminated (l : string) : string := l ++ String "010" EmptyString.

(** The inverse of [Split]: the pieces joined by the separator. *)
Fixpoint join_sep (sep : ascii) (ps : list string) : string :=
  match ps with
  | [] => EmptyString
  | [p] => p
  | p :: ps => p ++ String sep (join_sep sep ps)
  end.

(** The number of occurrences of [c] in [s]. *)
Fixpoint count_char (c : ascii) (s : string) : nat :=
  match s with
  | EmptyString => 0
  | String x r => (if Ascii.eqb x c then 1 else 0) + count_char c r
  end.

(** The state an open store keeps: the file at [FilePath] followed by the
    writer's buffer is a sequence of complete lines, each fitting the
    scanner's buffer, whose replay from an empty map gives the map. *)
Definition log_inv (w : world) : Prop :=
  let d := db w in
  closed d = false /\ locked d = false /\ file d = Some (FilePath d) /\
  fd_open d = true /\ werr d = None /\
  exists contents ls,
    fs w !! FilePath d = Some contents /\
    contents ++ wbuf d = join (map terminated ls) /\
    Forall (fun l => no_sep "010" l = true) ls /\
    Forall (fun l => String.length l < MaxScanTokenSize) ls /\
    replay ls ∅ = Ok (data d).

(** A call that returned left the file system as it was. *)
Definition keeps_fs {A} (o : outcome A) (w : world) : Prop :=
  match o with
  | Blocked => True
  | Done _ w' => fs w' = fs w
  end.

(* ------------------------------------------------------------------ *)
(** ** Call sequences and concrete stores *)

(** [Open] then [PutObject] then [Close] then [Open] again on the same path;
    [None] when one of the first three calls fails or blocks. *)
Definition put_close_reopen (env : IOEnv) (path : string) (fs0 : FS) (k : string) (v : list byte)
  : option (result DB) :=
  match Open env path fs0 with
  | (Err _, _) => None
  | (Ok d, fs1) =>
      match PutObject env k v (mkWorld fs1 d) with
      | Done None w1 =>
          match Close env w1 with
          | Done None w2 => Some (fst (Open env path (fs w2)))
          | _ => None
          end
      | _ => None
      end
  end.

(** [Close] then [Open] on the database's path. *)
Definition close_reopen (env env' : IOEnv) (w : world) : option (option error * (result DB * FS)) :=
  match Close env w with
  | Blocked => None
  | Done r w1 => Some (r, Open env' (FilePath (db w1)) (fs w1))
  end.

Definition world_of (r : result DB * FS) : world :=
  match r with
  | (Ok d, fs1) => mkWorld fs1 d
  | (Err _, fs1) => mkWorld fs1 (mkDB "" true ∅ false None false EmptyString None)
  end.

Definition after {A} (o : outcome A) (w0 : world) : world :=
  match o with Done _ w => w | Blocked => w0 end.

(** A store freshly opened on a path where no file exists. *)
Definition w_fresh : world := world_of (Open env_ok "todo.db" ∅).

(** The same store after [PutObject("1", "hello")]. *)
Definition w_hello : world := after (PutObject env_ok "1" (list_byte_of_string "hello") w_fresh) w_fresh.

(** [w_fresh] and [w_hello] after a successful [Close]. *)
Definition w_fresh_closed : world := after (Close env_ok w_fresh) w_fresh.
Definition w_hello_closed : world := after (Close env_ok w_hello) w_hello.

(** A disk that is full: every write and flush fails. *)
Definition ENOSPC : error := IOError "write todo.db: no space left on device".
Definition env_disk_full : IOEnv := mkIOEnv None None None None (Some ENOSPC) (Some ENOSPC).

(** [w_hello] after a [Close] whose flush failed. *)
Definition w_hello_flush_failed : world := after (Close env_disk_full w_hello) w_hello.

(** An entry whose key holds ',' and '\n' and whose value holds ',', '\n'
    and a high byte. *)
Definition entry_tricky : entry :=
  newEntry Put (String "," (String "010" "k")) ["044"%byte; "010"%byte; "255"%byte; "000"%byte].

(** The scenario of the spec: three keys written, then a line with two
    fields appended. *)
Definition log_three_keys : list string :=
  ["put,MQ==,YQ=="; "put,Mg==,Yg=="; "put,Mw==,Yw=="].
Definition log_corrupted : string :=
  join (map terminated log_three_keys) ++ "put,MQ==".
Definition fs_corrupted : FS := {[ "todo.db" := log_corrupted ]}.

(** A log that writes three keys, overwrites one and deletes another. *)
Definition log_with_delete : string :=
  join (map terminated ["put,MQ==,YQ=="; "put,Mg==,Yg=="; "del,MQ==,";
                        "put,Mw==,Yw=="; "put,Mg==,Yno="]).
Definition fs_compactable : FS := {[ "todo.db" := log_with_delete ]}.

(** [w_hello] after [PutObject("2", "world")]. *)
Definition w_hello_world : world :=
  after (PutObject env_ok "2" (list_byte_of_string "world") w_hello) w_hello.

(** [w_hello] after [DeleteObject("1")]. *)
Definition w_hello_deleted : world := after (DeleteObject env_ok "1" w_hello) w_hello.

(** A stand-in for [encoding/gob] in examples: the title's bytes, and a
    task with id 1 carrying them back. *)
Definition enc_title (t : domain.Task) : result (list byte) :=
  Ok (list_byte_of_string (domain.Title t)).
Definition dec_title (b : list byte) : result domain.Task :=
  Ok (domain.NewTask 1 (string_of_list_byte b) "" false).
Definition task_one : domain.Task := domain.NewTask 1 "buy milk" "" false.
Definition task_two : domain.Task := domain.NewTask 2 "walk" "" false.

(** An environment where the rename of [Shrink] works but the new file
    cannot be created. *)
Definition EACCES : error := IOError "open todo.db: permission denied".
Definition env_no_create : IOEnv := mkIOEnv (Some EACCES) None None None None None.


(** A log whose second line carries the kind token "xyz". *)
Definition log_unknown_kind : string :=
  join (map terminated ["put,MQ==,aGVsbG8="; "xyz,Mg==,d29ybGQ="]).
Definition fs_unknown_kind : FS := {[ "todo.db" := log_unknown_kind ]}.

(* ================================================================== *)
(** * Proofs about the codec *)

Module Base64Facts.
Import Base64.

(** The codec agrees with Go on small inputs. *)
Example toBytes_hello :
  toBytes (newEntry Put "1" (list_byte_of_string "hello")) = "put,MQ==,aGVsbG8=" ++ String "010" EmptyString.
Proof. reflexivity. Qed.

Example newEntryFromLine_hello :
  newEntryFromLine "put,MQ==,aGVsbG8=" = Ok (newEntry Put "1" (list_byte_of_string "hello")).
Proof. reflexivity. Qed.

Example Split_empty : Split "" "," = [""].
Proof. reflexivity. Qed.

Lemma decodeMap_char b5 b4 b3 b2 b1 b0 :
  decodeMap (char b5 b4 b3 b2 b1 b0) = Some (sextet b5 b4 b3 b2 b1 b0).
Proof. destruct b5, b4, b3, b2, b1, b0; reflexivity. Qed.

Lemma is_pad_char b5 b4 b3 b2 b1 b0 : is_pad (char b5 b4 b3 b2 b1 b0) = false.
Proof. destruct b5, b4, b3, b2, b1, b0; reflexivity. Qed.

Lemma is_newline_char b5 b4 b3 b2 b1 b0 : is_newline (char b5 b4 b3 b2 b1 b0) = false.
Proof. destruct b5, b4, b3, b2, b1, b0; reflexivity. Qed.

Lemma char_not_comma b5 b4 b3 b2 b1 b0 : Ascii.eqb (char b5 b4 b3 b2 b1 b0) "," = false.
Proof. destruct b5, b4, b3, b2, b1, b0; reflexivity. Qed.

Lemma bit_sextet b5 b4 b3 b2 b1 b0 :
  bit (sextet b5 b4 b3 b2 b1 b0) 5 = b5 /\ bit (sextet b5 b4 b3 b2 b1 b0) 4 = b4 /\
  bit (sextet b5 b4 b3 b2 b1 b0) 3 = b3 /\ bit (sextet b5 b4 b3 b2 b1 b0) 2 = b2 /\
  bit (sextet b5 b4 b3 b2 b1 b0) 1 = b1 /\ bit (sextet b5 b4 b3 b2 b1 b0) 0 = b0.
Proof. destruct b5, b4, b3, b2, b1, b0; repeat split. Qed.

Lemma byte1_sextet a7 a6 a5 a4 a3 a2 a1 a0 x y z w :
  byte1 (sextet a7 a6 a5 a4 a3 a2) (sextet a1 a0 x y z w) = Ascii a0 a1 a2 a3 a4 a5 a6 a7.
Proof.
  unfold byte1.
  destruct (bit_sextet a7 a6 a5 a4 a3 a2) as (-> & -> & -> & -> & -> & ->).
  destruct (bit_sextet a1 a0 x y z w) as (-> & -> & _).
  reflexivity.
Qed.

Lemma byte2_sextet x y b7 b6 b5 b4 b3 b2 b1 b0 z w :
  byte2 (sextet x y b7 b6 b5 b4) (sextet b3 b2 b1 b0 z w) = Ascii b0 b1 b2 b3 b4 b5 b6 b7.
Proof.
  unfold byte2.
  destruct (bit_sextet x y b7 b6 b5 b4) as (_ & _ & -> & -> & -> & ->).
  destruct (bit_sextet b3 b2 b1 b0 z w) as (-> & -> & -> & -> & _).
  reflexivity.
Qed.

Lemma byte3_sextet x y z w c7 c6 c5 c4 c3 c2 c1 c0 :
  byte3 (sextet x y z w c7 c6) (sextet c5 c4 c3 c2 c1 c0) = Ascii c0 c1 c2 c3 c4 c5 c6 c7.
Proof.
  unfold byte3.
  destruct (bit_sextet x y z w c7 c6) as (_ & _ & _ & _ & -> & ->).
  destruct (bit_sextet c5 c4 c3 c2 c1 c0) as (-> & -> & -> & -> & -> & ->).
  reflexivity.
Qed.

Lemma decode_encode (l : list ascii) : decode (encode l) = Some l.
Proof.
  revert l; fix IH 1; intros l.
  destruct l as [|[a0 a1 a2 a3 a4 a5 a6 a7] [|[b0 b1 b2 b3 b4 b5 b6 b7] [|[c0 c1 c2 c3 c4 c5 c6 c7] r]]];
    [reflexivity| | |].
  - cbn [encode decode]. rewrite !decodeMap_char, ?is_pad_char.
    rewrite byte1_sextet. reflexivity.
  - cbn [encode decode]. rewrite !decodeMap_char, ?is_pad_char.
    rewrite byte1_sextet, byte2_sextet. reflexivity.
  - cbn [encode decode]. rewrite !decodeMap_char, ?is_pad_char, (IH r).
    rewrite byte1_sextet, byte2_sextet, byte3_sextet. reflexivity.
Qed.


Lemma encode_forall (p : ascii -> bool) (l : list ascii) :
  (forall b5 b4 b3 b2 b1 b0, p (char b5 b4 b3 b2 b1 b0) = true) -> p "="%char = true ->
  string_forall p (encode l) = true.
Proof.
  intros Hc Hp. revert l; fix IH 1; intros l.
  destruct l as [|[a0 a1 a2 a3 a4 a5 a6 a7] [|[b0 b1 b2 b3 b4 b5 b6 b7] [|[c0 c1 c2 c3 c4 c5 c6 c7] r]]];
    cbn [encode string_forall]; rewrite ?Hc, ?Hp; try reflexivity.
  apply IH.
Qed.

Lemma strip_newlines_id (s : string) :
  string_forall (fun c => negb (is_newline c)) s = true -> strip_newlines s = s.
Proof.
  induction s as [|c r IHr]; cbn; [reflexivity|].
  destruct (is_newline c); cbn; [discriminate|].
  intros H. rewrite IHr by exact H. reflexivity.
Qed.

Lemma strip_newlines_app (s t : string) :
  strip_newlines (s ++ t) = strip_newlines s ++ strip_newlines t.
Proof.
  induction s as [|c r IHr]; simpl; [reflexivity|].
  destruct (is_newline c); simpl; rewrite IHr; reflexivity.
Qed.

Lemma strip_newlines_encode (l : list ascii) : strip_newlines (encode l) = encode l.
Proof.
  apply strip_newlines_id, encode_forall; [|reflexivity].
  intros. rewrite is_newline_char. reflexivity.
Qed.

Lemma DecodeString_EncodeToString (bs : list byte) :
  DecodeString (EncodeToString bs) = Ok bs.
Proof.
  unfold DecodeString, EncodeToString.
  rewrite strip_newlines_encode, decode_encode, map_map.
  f_equal. rewrite <- (map_id bs) at 2. apply map_ext.
  intros b. apply byte_of_ascii_of_byte.
Qed.

End Base64Facts.

Module EntryFacts.
Import Base64 Base64Facts.

Lemma app_String c (s t : string) : String c s ++ t = String c (s ++ t).
Proof. reflexivity. Qed.

Lemma app_Empty (t : string) : EmptyString ++ t = t.
Proof. reflexivity. Qed.

Lemma string_app_assoc (s t u : string) : (s ++ t) ++ u = s ++ (t ++ u).
Proof.
  induction s as [|c r IHr]; [reflexivity|].
  rewrite !app_String, IHr. reflexivity.
Qed.


Lemma Split_no_sep (s : string) sep : no_sep sep s = true -> Split s sep = [s].
Proof.
  unfold no_sep. induction s as [|c r IHr]; [reflexivity|].
  cbn [string_forall Split]. destruct (Ascii.eqb c sep); [discriminate|].
  cbn. intros H. rewrite IHr by exact H. reflexivity.
Qed.

Lemma Split_app (s t : string) sep :
  no_sep sep s = true -> Split (s ++ String sep t) sep = s :: Split t sep.
Proof.
  unfold no_sep. induction s as [|c r IHr].
  - intros _. rewrite app_Empty. cbn [Split]. rewrite Ascii.eqb_refl. reflexivity.
  - rewrite app_String. cbn [string_forall Split].
    destruct (Ascii.eqb c sep); [discriminate|].
    cbn. intros H. rewrite IHr by exact H. reflexivity.
Qed.

Lemma no_sep_app sep (s t : string) :
  no_sep sep s = true -> no_sep sep t = true -> no_sep sep (s ++ t) = true.
Proof.
  unfold no_sep. induction s as [|c r IHr]; [tauto|].
  rewrite app_String. cbn [string_forall].
  intros [H1 H2]%andb_prop H3. rewrite H1, (IHr H2 H3). reflexivity.
Qed.

Lemma no_sep_EncodeToString sep bs :
  Ascii.eqb "=" sep = false ->
  (forall b5 b4 b3 b2 b1 b0, Ascii.eqb (char b5 b4 b3 b2 b1 b0) sep = false) ->
  no_sep sep (EncodeToString bs) = true.
Proof.
  intros Hp Hc. apply encode_forall.
  - intros. rewrite Hc. reflexivity.
  - rewrite Hp. reflexivity.
Qed.

Lemma no_comma_EncodeToString bs : no_sep "," (EncodeToString bs) = true.
Proof. apply no_sep_EncodeToString; [reflexivity|apply char_not_comma]. Qed.

Lemma no_newline_EncodeToString bs : no_sep "010" (EncodeToString bs) = true.
Proof.
  apply no_sep_EncodeToString; [reflexivity|].
  intros b5 b4 b3 b2 b1 b0. pose proof (is_newline_char b5 b4 b3 b2 b1 b0) as H.
  unfold is_newline in H. apply orb_false_elim in H. apply H.
Qed.

Lemma string_app_nil (s : string) : s ++ EmptyString = s.
Proof. induction s as [|c r IHr]; [reflexivity|]. rewrite app_String, IHr. reflexivity. Qed.

Lemma DecodeString_newline bs :
  DecodeString (EncodeToString bs ++ String "010" EmptyString) = Ok bs.
Proof.
  pose proof (DecodeString_EncodeToString bs) as H. unfold DecodeString in *.
  rewrite strip_newlines_app.
  replace (strip_newlines (String "010" EmptyString)) with EmptyString by reflexivity.
  rewrite string_app_nil. exact H.
Qed.


Lemma toBytes_line_of e : toBytes e = line_of e ++ String "010" EmptyString.
Proof.
  unfold toBytes, line_of. rewrite !string_app_assoc. reflexivity.
Qed.

Lemma newEntryFromLine_fields a (k v : list byte) (tail : string) :
  no_sep "," a = true -> no_sep "," tail = true ->
  DecodeString (EncodeToString v ++ tail) = Ok v ->
  newEntryFromLine (a ++ "," ++ EncodeToString k ++ "," ++ EncodeToString v ++ tail)
  = Ok (newEntry a (string_of_list_byte k) v).
Proof.
  intros Ha Ht Hv. unfold newEntryFromLine.
  rewrite !app_String, !app_Empty.
  rewrite Split_app by exact Ha.
  rewrite Split_app by apply no_comma_EncodeToString.
  rewrite Split_no_sep by (apply no_sep_app; [apply no_comma_EncodeToString|exact Ht]).
  rewrite DecodeString_EncodeToString, Hv. reflexivity.
Qed.

End EntryFacts.

(* ================================================================== *)
(** * Proofs about the store *)

Module StoreFacts.

Lemma writer_Write_fields env d p :
  let d' := snd (writer_Write env d p) in
  FilePath d' = FilePath d /\ closed d' = closed d /\ data d' = data d /\
  locked d' = locked d /\ file d' = file d /\ fd_open d' = fd_open d.
Proof.
  unfold writer_Write. destruct (werr d); [repeat split|].
  destruct (write_res env); repeat split.
Qed.

Lemma writer_Flush_fields env fs0 d :
  let d' := snd (writer_Flush env fs0 d) in
  FilePath d' = FilePath d /\ closed d' = closed d /\ data d' = data d /\
  locked d' = locked d /\ file d' = file d /\ fd_open d' = fd_open d.
Proof.
  unfold writer_Flush. repeat case_match; cbn; repeat split; congruence.
Qed.

Lemma file_Close_fields env d :
  let d' := snd (file_Close env d) in
  FilePath d' = FilePath d /\ closed d' = closed d /\ data d' = data d /\
  locked d' = locked d /\ file d' = file d /\ wbuf d' = wbuf d /\ werr d' = werr d.
Proof. unfold file_Close. destruct (fd_open d); repeat split. Qed.

End StoreFacts.

(** Facts about the log: how the scanner cuts it, and the load/close paths. *)
Module LogFacts.
Import Base64 Base64Facts EntryFacts StoreFacts.

Lemma string_length_app (s t : string) : String.length (s ++ t) = String.length s + String.length t.
Proof. induction s as [|c r IHr]; [reflexivity|]. rewrite app_String. cbn. rewrite IHr. reflexivity. Qed.



Lemma Split_join_lines (ls : list string) :
  Forall (fun l => no_sep "010" l = true) ls ->
  Split (join (map terminated ls)) "010" = (ls ++ [EmptyString])%list.
Proof.
  induction 1 as [|l ls Hl _ IH]; [reflexivity|].
  unfold join in *. cbn [map foldr].
  change (terminated l) with (l ++ String "010" EmptyString).
  rewrite string_app_assoc, app_String, app_Empty.
  rewrite Split_app by exact Hl. rewrite IH. reflexivity.
Qed.

Lemma raw_lines_join (ls : list string) :
  Forall (fun l => no_sep "010" l = true) ls ->
  raw_lines (join (map terminated ls)) = ls.
Proof.
  intros H. unfold raw_lines. rewrite Split_join_lines by exact H.
  rewrite last_snoc. apply removelast_last.
Qed.

Lemma no_newline_line_of (e : entry) :
  no_sep "010" (e_action e) = true -> no_sep "010" (line_of e) = true.
Proof.
  intros Ha. unfold line_of.
  repeat (apply no_sep_app; [try exact Ha; try reflexivity; try apply no_newline_EncodeToString|]).
  apply no_newline_EncodeToString.
Qed.

(** [Open] on a path with no file. *)
Lemma Open_fresh env path (fs0 : FS) :
  fs0 !! path = None -> create_res env = None ->
  Open env path fs0 = (Ok (mkDB path false ∅ false (Some path) true EmptyString None),
                       <[path := EmptyString]> fs0).
Proof. intros Hp Hc. unfold Open, load. cbn [FilePath]. rewrite Hp, Hc. reflexivity. Qed.

(** [Open] on an existing file whose replay fails: nothing is returned and
    the file system is left as it was. *)
Lemma Open_replay_error env path (fs0 : FS) contents e :
  fs0 !! path = Some contents -> open_res env = None ->
  replay (raw_lines contents) ∅ = Err e ->
  Open env path fs0 = (Err (Wrapf "inmemorydb: failed to load database" e), fs0).
Proof. intros Hp Ho Hr. unfold Open, load. cbn [FilePath]. rewrite Hp, Ho. cbn. rewrite Hr. reflexivity. Qed.

(** [PutObject] of an absent key on an open store whose writer is healthy. *)
Lemma PutObject_fresh_key env (fs0 : FS) path m k v b :
  m !! k = None -> write_res env = None ->
  PutObject env k v (mkWorld fs0 (mkDB path false m false (Some path) true b None))
  = Done None (mkWorld fs0 (mkDB path false (<[k := v]> m) false (Some path) true
                              (b ++ toBytes (newEntry Put k v)) None)).
Proof. intros Hk Hw. unfold PutObject. cbn. rewrite Hk. unfold appendEntry, writer_Write. cbn. rewrite Hw. reflexivity. Qed.

(** [Close] of an open store with a non-empty buffer, when flush and close
    succeed. *)
Lemma Close_ok env (fs0 : FS) path m b :
  b <> EmptyString -> flush_res env = None -> close_res env = None ->
  Close env (mkWorld fs0 (mkDB path false m false (Some path) true b None))
  = Done None (mkWorld (<[path := default EmptyString (fs0 !! path) ++ b]> fs0)
                       (mkDB path true ∅ false None false EmptyString None)).
Proof.
  intros Hb Hf Hc. unfold Close. cbn. destruct b as [|c r]; [contradiction|].
  cbn. rewrite Hf. cbn. rewrite Hc. reflexivity.
Qed.

Lemma encode_length (l : list ascii) :
  String.length (encode l) = 4 * ((List.length l + 2) / 3).
Proof.
  revert l; fix IH 1; intros l.
  destruct l as [|[a0 a1 a2 a3 a4 a5 a6 a7] [|[b0 b1 b2 b3 b4 b5 b6 b7] [|[c0 c1 c2 c3 c4 c5 c6 c7] r]]];
    [reflexivity|reflexivity|reflexivity|].
  cbn [encode String.length List.length]. rewrite (IH r).
  replace (S (S (S (List.length r))) + 2) with (List.length r + 2 + 1 * 3) by lia.
  rewrite Nat.div_add by lia. lia.
Qed.

(** Reopening after [PutObject] of an entry whose log line does not fit the
    scanner's buffer fails with [ErrTooLong]. *)
Lemma put_close_reopen_long_line path (fs0 : FS) k v :
  fs0 !! path = None ->
  MaxScanTokenSize <= String.length (line_of (newEntry Put k v)) ->
  put_close_reopen env_ok path fs0 k v
  = Some (Err (Wrapf "inmemorydb: failed to load database"
                 (Wrapf "inmemorydb: failed to scan file" ErrTooLong))).
Proof.
  intros Hp Hlen. unfold put_close_reopen.
  rewrite Open_fresh by (exact Hp || reflexivity).
  rewrite PutObject_fresh_key by (apply lookup_empty || reflexivity).
  rewrite Close_ok; [|discriminate|reflexivity|reflexivity].
  cbn [fs db FilePath fst].
  rewrite (Open_replay_error env_ok path _ (join (map terminated [line_of (newEntry Put k v)]))
             (Wrapf "inmemorydb: failed to scan file" ErrTooLong)); [reflexivity| | reflexivity |].
  - rewrite lookup_insert_eq. cbn [default]. rewrite lookup_insert_eq. cbn [default].
    rewrite !app_Empty. cbn [map join foldr]. unfold terminated.
    rewrite string_app_nil. rewrite toBytes_line_of. reflexivity.
  - rewrite raw_lines_join.
    + cbn [replay]. apply Nat.leb_le in Hlen. rewrite Hlen. reflexivity.
    + constructor; [|constructor]. apply no_newline_line_of. reflexivity.
Qed.

Lemma line_of_length (e : entry) :
  String.length (line_of e) =
  String.length (e_action e) + 1 + String.length (EncodeToString (list_byte_of_string (e_key e)))
  + 1 + 4 * ((List.length (e_value e) + 2) / 3).
Proof.
  unfold line_of. rewrite !string_length_app. unfold EncodeToString at 2.
  rewrite encode_length, length_map. cbn [String.length]. lia.
Qed.

Lemma replay_app (pre rest : list string) (m0 : gmap string (list byte)) :
  replay (pre ++ rest) m0 = match replay pre m0 with Ok m => replay rest m | Err e => Err e end.
Proof.
  revert m0. induction pre as [|l pre IH]; intros m0; [reflexivity|].
  cbn [app replay]. destruct (Nat.leb MaxScanTokenSize (String.length l)); [reflexivity|].
  destruct (newEntryFromLine (dropCR l)) as [en|e]; [|reflexivity].
  destruct (String.eqb (e_action en) Put); [apply IH|].
  destruct (String.eqb (e_action en) Del); [apply IH|reflexivity].
Qed.

Lemma newEntryFromLine_field_count (line : string) :
  List.length (Split line ",") <> 3 -> newEntryFromLine line = Err ErrBadFormat.
Proof.
  intros H. unfold newEntryFromLine.
  destruct (Split line ",") as [|a [|k [|v [|x xs]]]]; try reflexivity.
  cbn in H. contradiction.
Qed.

Lemma replay_field_count (l : string) (rest : list string) m :
  List.length (Split (dropCR l) ",") <> 3 -> exists e, replay (l :: rest) m = Err e.
Proof.
  intros H. cbn [replay]. destruct (Nat.leb MaxScanTokenSize (String.length l)); [eauto|].
  rewrite newEntryFromLine_field_count by exact H. eauto.
Qed.

(** The errors of [newEntryFromLine]: [ErrBadFormat] for a wrong field
    count, otherwise the base64 error, wrapped. *)
Lemma newEntryFromLine_Err (line : string) e :
  newEntryFromLine line = Err e ->
  (List.length (Split line ",") <> 3 /\ e = ErrBadFormat) \/
  (List.length (Split line ",") = 3 /\
   (e = Wrapf "inmemorydb: unable to decode key" CorruptInputError \/
    e = Wrapf "inmemorydb: unable to decode value" CorruptInputError)).
Proof.
  unfold newEntryFromLine.
  destruct (Split line ",") as [|a [|k [|v [|x xs]]]];
    try (intros H; injection H as <-; left; split; [cbn; lia|reflexivity]).
  unfold DecodeString.
  destruct (decode (strip_newlines k));
    [|intros H; injection H as <-; right; split; [reflexivity|left; reflexivity]].
  destruct (decode (strip_newlines v));
    [discriminate|intros H; injection H as <-; right; split; [reflexivity|right; reflexivity]].
Qed.



(** The scan loop on a line that fits and decodes, with an action that is
    neither [Put] nor [Del]: the [default] branch of the switch. *)
Lemma replay_unknown_action (l : string) (rest : list string) m en :
  String.length l < MaxScanTokenSize -> newEntryFromLine (dropCR l) = Ok en ->
  e_action en <> Put -> e_action en <> Del -> replay (l :: rest) m = Err ErrBadFormat.
Proof.
  intros Hlen Hdec HP HD. cbn [replay].
  replace (Nat.leb MaxScanTokenSize (String.length l)) with false
    by (symmetry; apply Nat.leb_gt; exact Hlen).
  rewrite Hdec.
  destruct (String.eqb_spec (e_action en) Put); [contradiction|].
  destruct (String.eqb_spec (e_action en) Del); [contradiction|].
  reflexivity.
Qed.


End LogFacts.

(** Compaction: the lines [Shrink] writes, and what replaying them gives. *)
Module CompactionFacts.
Import Base64 Base64Facts EntryFacts StoreFacts LogFacts.

Lemma decode_length (s : string) (l : list ascii) :
  decode s = Some l -> String.length (encode l) = String.length s.
Proof.
  rewrite encode_length. revert s l; fix IH 1; intros s l.
  destruct s as [|c1 [|c2 [|c3 [|c4 r]]]]; cbn [decode];
    try (intros H; injection H as <-; reflexivity); try discriminate.
  destruct (decodeMap c1) as [v1|], (decodeMap c2) as [v2|]; try discriminate.
  destruct (is_pad c3).
  - destruct (is_pad c4); [|discriminate]. destruct r; [|discriminate].
    intros H; injection H as <-. reflexivity.
  - destruct (decodeMap c3) as [v3|]; [|discriminate].
    destruct (is_pad c4).
    + destruct r; [|discriminate]. intros H; injection H as <-. reflexivity.
    + destruct (decodeMap c4) as [v4|]; [|discriminate].
      destruct (decode r) as [rest|] eqn:Er; [|discriminate].
      intros H; injection H as <-. specialize (IH r rest Er).
      cbn [List.length String.length]. rewrite <- IH.
      replace (S (S (S (List.length rest))) + 2) with (List.length rest + 2 + 1 * 3) by lia.
      rewrite Nat.div_add by lia. lia.
Qed.

Lemma strip_newlines_length (s : string) : String.length (strip_newlines s) <= String.length s.
Proof. induction s as [|c r IHr]; cbn; [lia|]. destruct (is_newline c); cbn; lia. Qed.

Lemma DecodeString_length (s : string) (bs : list byte) :
  DecodeString s = Ok bs -> String.length (EncodeToString bs) <= String.length s.
Proof.
  unfold DecodeString. destruct (decode (strip_newlines s)) as [l|] eqn:E; [|discriminate].
  intros H; injection H as <-. unfold EncodeToString. rewrite map_map.
  rewrite (map_ext _ id) by apply ascii_of_byte_of_ascii. rewrite map_id.
  rewrite (decode_length _ _ E). apply strip_newlines_length.
Qed.

Lemma Split_nonempty (s : string) sep : Split s sep <> [].
Proof.
  destruct s as [|c r]; cbn; [discriminate|]. destruct (Ascii.eqb c sep); [discriminate|].
  destruct (Split r sep); discriminate.
Qed.

Lemma join_sep_String sep c p ps :
  join_sep sep (String c p :: ps) = String c (join_sep sep (p :: ps)).
Proof. destruct ps; reflexivity. Qed.

Lemma Split_join_sep (s : string) sep : join_sep sep (Split s sep) = s.
Proof.
  induction s as [|c r IHr]; [reflexivity|]. cbn [Split].
  destruct (Ascii.eqb_spec c sep) as [->|Hne].
  - pose proof (Split_nonempty r sep) as Hn.
    destruct (Split r sep) as [|p ps] eqn:E; [contradiction|].
    cbn [join_sep]. rewrite app_Empty, <- IHr. reflexivity.
  - pose proof (Split_nonempty r sep) as Hn.
    destruct (Split r sep) as [|p ps]; [contradiction|].
    rewrite join_sep_String, IHr. reflexivity.
Qed.

Lemma dropCR_length (s : string) : String.length (dropCR s) <= String.length s.
Proof.
  induction s as [|c r IHr]; [reflexivity|].
  destruct r as [|c' r'].
  - cbn [dropCR]. destruct (Ascii.eqb c "013"); cbn; lia.
  - change (dropCR (String c (String c' r'))) with (String c (dropCR (String c' r'))).
    cbn [String.length] in *. lia.
Qed.

Lemma dropCR_id (s : string) : no_sep "013" s = true -> dropCR s = s.
Proof.
  unfold no_sep. induction s as [|c r IHr]; [reflexivity|].
  cbn [string_forall]. intros [Hc Hr]%andb_prop.
  destruct r as [|c' r'].
  - cbn [dropCR]. destruct (Ascii.eqb c "013"); [discriminate|reflexivity].
  - change (dropCR (String c (String c' r'))) with (String c (dropCR (String c' r'))).
    rewrite IHr by exact Hr. reflexivity.
Qed.

Lemma no_cr_EncodeToString bs : no_sep "013" (EncodeToString bs) = true.
Proof.
  apply no_sep_EncodeToString; [reflexivity|].
  intros b5 b4 b3 b2 b1 b0. pose proof (is_newline_char b5 b4 b3 b2 b1 b0) as H.
  unfold is_newline in H. apply orb_false_elim in H. apply H.
Qed.

Lemma no_cr_line_of (e : entry) :
  no_sep "013" (e_action e) = true -> no_sep "013" (line_of e) = true.
Proof.
  intros Ha. unfold line_of.
  repeat (apply no_sep_app; [try exact Ha; try reflexivity; try apply no_cr_EncodeToString|]).
  apply no_cr_EncodeToString.
Qed.

(** Re-encoding a decoded line never makes it longer. *)
Lemma newEntryFromLine_line_length (line : string) (en : entry) :
  newEntryFromLine line = Ok en -> String.length (line_of en) <= String.length line.
Proof.
  unfold newEntryFromLine. pose proof (Split_join_sep line ",") as Hj.
  destruct (Split line ",") as [|a [|k [|v [|x xs]]]]; try discriminate.
  destruct (DecodeString k) as [kb|] eqn:Hk; [|discriminate].
  destruct (DecodeString v) as [vb|] eqn:Hv; [|discriminate].
  intros H; injection H as <-. rewrite <- Hj. cbn [join_sep].
  unfold line_of; cbn [e_action e_key e_value].
  rewrite list_byte_of_string_of_list_byte.
  apply DecodeString_length in Hk. apply DecodeString_length in Hv.
  rewrite !string_length_app. cbn [String.length]. rewrite !string_length_app. cbn [String.length]. lia.
Qed.

Lemma newEntryFromLine_line_of (e : entry) :
  e_action e = Put \/ e_action e = Del -> newEntryFromLine (line_of e) = Ok e.
Proof.
  destruct e as [a k v]; cbn [e_action]. intros Hact.
  assert (Ha : no_sep "," a = true) by (destruct Hact as [-> | ->]; reflexivity).
  unfold line_of; cbn [e_action e_key e_value].
  rewrite <- (string_app_nil (EncodeToString v)).
  rewrite newEntryFromLine_fields; [|exact Ha|reflexivity|].
  - rewrite string_of_list_byte_of_string. reflexivity.
  - rewrite string_app_nil. apply DecodeString_EncodeToString.
Qed.

(** The bound every line of a replayable log satisfies, carried over to
    the compacted lines of the map it builds. *)
Definition fits (m : gmap string (list byte)) : Prop :=
  map_Forall (fun k v => String.length (line_of (newEntry Put k v)) < MaxScanTokenSize) m.

Lemma replay_fits (ls : list string) m0 m :
  replay ls m0 = Ok m -> fits m0 -> fits m.
Proof.
  revert m0. induction ls as [|l ls IH]; intros m0; cbn [replay].
  - intros H; injection H as <-. tauto.
  - destruct (Nat.leb MaxScanTokenSize (String.length l)) eqn:Hl; [discriminate|].
    apply Nat.leb_gt in Hl.
    destruct (newEntryFromLine (dropCR l)) as [en|e] eqn:He; [|discriminate].
    destruct (String.eqb_spec (e_action en) Put) as [Hp|Hp].
    + intros Hr Hf. apply (IH _ Hr). apply map_Forall_insert_2; [|exact Hf].
      apply newEntryFromLine_line_length in He. pose proof (dropCR_length l).
      destruct en as [a k v]; cbn [e_action e_key e_value] in Hp, He |- *. subst a. lia.
    + destruct (String.eqb (e_action en) Del); [|discriminate].
      intros Hr Hf. apply (IH _ Hr). apply map_Forall_delete. exact Hf.
Qed.

Definition put_line (kv : string * list byte) : string := line_of (newEntry Put kv.1 kv.2).

Lemma replay_puts (kvs : list (string * list byte)) m0 :
  Forall (fun kv => String.length (put_line kv) < MaxScanTokenSize) kvs ->
  replay (map put_line kvs) m0 = Ok (foldl (fun m kv => <[kv.1 := kv.2]> m) m0 kvs).
Proof.
  intros H. revert m0. induction H as [|[k v] kvs Hl _ IH]; intros m0; [reflexivity|].
  cbn [map replay foldl]. apply Nat.leb_gt in Hl. rewrite Hl.
  unfold put_line at 1. rewrite dropCR_id by (apply no_cr_line_of; reflexivity).
  rewrite newEntryFromLine_line_of by (left; reflexivity). apply IH.
Qed.

Lemma foldl_insert (kvs : list (string * list byte)) (m0 : gmap string (list byte)) :
  NoDup kvs.*1 ->
  foldl (fun m kv => <[kv.1 := kv.2]> m) m0 kvs = list_to_map kvs ∪ m0.
Proof.
  revert m0. induction kvs as [|[k v] kvs IH]; intros m0 Hnd.
  - cbn. rewrite map_empty_union. reflexivity.
  - cbn [foldl fmap list_fmap fst snd] in *. apply NoDup_cons in Hnd as [Hk Hnd].
    rewrite IH by exact Hnd. cbn [list_to_map foldr fst snd].
    rewrite <- insert_union_l, insert_union_r; [reflexivity|].
    apply not_elem_of_list_to_map_1. exact Hk.
Qed.

Lemma shrink_loop_ok env kvs d d' :
  shrink_loop env kvs d = (None, d') -> werr d = None ->
  wbuf d' = wbuf d ++ join (map (fun kv => toBytes (newEntry Put kv.1 kv.2)) kvs)
  /\ data d' = data d.
Proof.
  revert d. induction kvs as [|[k v] kvs IH]; intros d; cbn [shrink_loop].
  - intros H; injection H as <-. intros _. rewrite string_app_nil. split; reflexivity.
  - unfold appendEntry, writer_Write. intros H Hw. rewrite Hw in H.
    destruct (write_res env); [discriminate|].
    apply IH in H as [Hb Hd]; [|reflexivity]. cbn in Hb, Hd.
    rewrite Hb, Hd, string_app_assoc. split; reflexivity.
Qed.

(** [Open] on an existing file that succeeds: the replay succeeded, the file
    at the path was recreated empty, and the loop of [Shrink] wrote every
    entry of the replayed map into the fresh writer. *)
Lemma Open_existing_ok env path (fs0 : FS) contents d fs1 :
  fs0 !! path = Some contents -> Open env path fs0 = (Ok d, fs1) ->
  exists m, replay (raw_lines contents) ∅ = Ok m /\ fs1 !! path = Some EmptyString /\
    shrink_loop env (map_to_list m) (mkDB path false m false (Some path) true EmptyString None)
    = (None, d).
Proof.
  intros Hp HO. unfold Open, load in HO. cbn [FilePath] in HO. rewrite Hp in HO.
  destruct (open_res env); [discriminate|].
  cbn [set_file data] in HO.
  destruct (replay (raw_lines contents) ∅) as [m|e] eqn:Hr; [|discriminate].
  exists m. split; [reflexivity|].
  unfold Shrink, file_Close in HO. cbn in HO.
  destruct (close_res env); [discriminate|]. destruct (rename_res env); [discriminate|].
  rewrite Hp in HO. destruct (create_res env); [discriminate|].
  destruct (shrink_loop env (map_to_list m) _) as [[e|] d2] eqn:Hs; [discriminate|].
  injection HO as <- <-. split; [apply lookup_insert_eq|reflexivity].
Qed.

End CompactionFacts.

(** Facts for the properties of the rest of the package and of its caller. *)
Module ExtraFacts.
Import Base64 Base64Facts EntryFacts StoreFacts LogFacts CompactionFacts.

Lemma count_Split (s : string) sep : List.length (Split s sep) = S (count_char sep s).
Proof.
  induction s as [|c r IHr]; [reflexivity|]. cbn [Split count_char].
  pose proof (Split_nonempty r sep) as Hn.
  destruct (Ascii.eqb c sep).
  - cbn [List.length]. lia.
  - destruct (Split r sep) as [|p ps]; [contradiction|]. cbn [List.length] in *. lia.
Qed.

Lemma join_app (l1 l2 : list string) : join (l1 ++ l2) = join l1 ++ join l2.
Proof.
  induction l1 as [|x l1 IH]; [reflexivity|]. unfold join in *. cbn [List.app foldr].
  rewrite IH, string_app_assoc. reflexivity.
Qed.

Lemma Split_join_prefix (ls : list string) (t : string) :
  Forall (fun l => no_sep "010" l = true) ls ->
  Split (join (map terminated ls) ++ t) "010" = (ls ++ Split t "010")%list.
Proof.
  induction 1 as [|l ls Hl _ IH]; [reflexivity|].
  unfold join in *. cbn [map foldr List.app].
  change (terminated l) with (l ++ String "010" EmptyString).
  rewrite !string_app_assoc, app_String, app_Empty.
  rewrite Split_app by exact Hl. rewrite IH. reflexivity.
Qed.

Lemma shrink_loop_succeeds env kvs d :
  write_res env = None -> werr d = None -> fst (shrink_loop env kvs d) = None.
Proof.
  revert d. induction kvs as [|[k v] kvs IH]; intros d Hw Hd; [reflexivity|].
  cbn [shrink_loop]. unfold appendEntry, writer_Write. rewrite Hd, Hw.
  apply IH; [exact Hw|reflexivity].
Qed.

Lemma shrink_loop_fields env kvs d d' :
  shrink_loop env kvs d = (None, d') -> werr d = None ->
  FilePath d' = FilePath d /\ closed d' = closed d /\ locked d' = locked d /\
  file d' = file d /\ fd_open d' = fd_open d /\ werr d' = None.
Proof.
  revert d. induction kvs as [|[k v] kvs IH]; intros d H Hw; cbn [shrink_loop] in H.
  - injection H as <-. repeat split; assumption.
  - unfold appendEntry, writer_Write in H. rewrite Hw in H.
    destruct (write_res env); [discriminate|].
    apply IH in H; [|reflexivity]. exact H.
Qed.

(** The file system [Open] leaves on an existing file when it succeeds. *)
Lemma Open_existing_fs env path (fs0 : FS) contents d fs1 :
  fs0 !! path = Some contents -> Open env path fs0 = (Ok d, fs1) ->
  fs1 = <[path := EmptyString]> (<[path ++ ".bak" := contents]> (delete path fs0)).
Proof.
  intros Hp HO. unfold Open, load in HO. cbn [FilePath] in HO. rewrite Hp in HO.
  destruct (open_res env); [discriminate|].
  cbn [set_file data] in HO.
  destruct (replay (raw_lines contents) ∅) as [m|e] eqn:Hr; [|discriminate].
  unfold Shrink, file_Close in HO. cbn in HO.
  destruct (close_res env); [discriminate|]. destruct (rename_res env); [discriminate|].
  rewrite Hp in HO. destruct (create_res env); [discriminate|].
  destruct (shrink_loop env (map_to_list m) _) as [[e|] d2]; [discriminate|].
  injection HO as <- <-. reflexivity.
Qed.

Lemma put_lines_no_newline (m : gmap string (list byte)) :
  Forall (fun l => no_sep "010" l = true) (map put_line (map_to_list m)).
Proof.
  apply List.Forall_map, List.Forall_forall. intros kv _.
  apply no_newline_line_of. reflexivity.
Qed.

Lemma put_lines_fit (m : gmap string (list byte)) :
  fits m -> Forall (fun l => String.length l < MaxScanTokenSize) (map put_line (map_to_list m)).
Proof.
  intros Hf. apply List.Forall_map, List.Forall_forall. intros [k v] Hin.
  apply (Hf k v). apply elem_of_map_to_list, list_elem_of_In. exact Hin.
Qed.

Lemma replay_compacted (m : gmap string (list byte)) :
  fits m -> replay (map put_line (map_to_list m)) ∅ = Ok m.
Proof.
  intros Hf. rewrite replay_puts.
  - rewrite foldl_insert by apply NoDup_fst_map_to_list.
    rewrite list_to_map_to_list, map_union_empty. reflexivity.
  - apply List.Forall_forall. intros [k v] Hin.
    apply (Hf k v). apply elem_of_map_to_list, list_elem_of_In. exact Hin.
Qed.

Lemma join_toBytes_puts (kvs : list (string * list byte)) :
  join (map (fun kv => toBytes (newEntry Put kv.1 kv.2)) kvs) = join (map terminated (map put_line kvs)).
Proof.
  rewrite map_map. f_equal. apply map_ext. intros kv. apply toBytes_line_of.
Qed.

(** [Open] on an existing file whose replay succeeds, when every system
    call succeeds. *)
Lemma Open_existing_success env path (fs0 : FS) contents m :
  open_res env = None -> close_res env = None -> rename_res env = None ->
  create_res env = None -> write_res env = None ->
  fs0 !! path = Some contents -> replay (raw_lines contents) ∅ = Ok m ->
  exists d fs1, Open env path fs0 = (Ok d, fs1) /\ data d = m.
Proof.
  intros Ho Hc Hr Hcr Hw Hp Hrep. unfold Open, load. cbn [FilePath]. rewrite Hp, Ho.
  cbn [set_file data]. rewrite Hrep. unfold Shrink, file_Close. cbn.
  rewrite Hc, Hr, Hp, Hcr.
  destruct (shrink_loop env (map_to_list m) _) as [[e|] d2] eqn:Hs.
  - apply (f_equal fst) in Hs. rewrite shrink_loop_succeeds in Hs by (exact Hw || reflexivity).
    discriminate.
  - eexists d2, _. split; [reflexivity|].
    apply shrink_loop_ok in Hs as [_ Hd]; [|reflexivity]. exact Hd.
Qed.

Lemma replay_put_line k v (m : gmap string (list byte)) :
  String.length (line_of (newEntry Put k v)) < MaxScanTokenSize ->
  replay [line_of (newEntry Put k v)] m = Ok (<[k := v]> m).
Proof.
  intros H. cbn [replay]. apply Nat.leb_gt in H. rewrite H.
  rewrite dropCR_id by (apply no_cr_line_of; reflexivity).
  rewrite newEntryFromLine_line_of by (left; reflexivity). reflexivity.
Qed.

Lemma replay_del_line k (m : gmap string (list byte)) :
  String.length (line_of (newEntry Del k [])) < MaxScanTokenSize ->
  replay [line_of (newEntry Del k [])] m = Ok (delete k m).
Proof.
  intros H. cbn [replay]. apply Nat.leb_gt in H. rewrite H.
  rewrite dropCR_id by (apply no_cr_line_of; reflexivity).
  rewrite newEntryFromLine_line_of by (right; reflexivity). reflexivity.
Qed.

(** Appending one Put or Del line that fits the scanner keeps [log_inv]. *)
Lemma log_inv_extend (fs0 : FS) d m' e :
  log_inv (mkWorld fs0 d) ->
  e_action e = Put \/ e_action e = Del ->
  String.length (line_of e) < MaxScanTokenSize ->
  replay [line_of e] (data d) = Ok m' ->
  log_inv (mkWorld fs0 (mkDB (FilePath d) (closed d) m' (locked d) (file d) (fd_open d)
                             (wbuf d ++ toBytes e) None)).
Proof.
  unfold log_inv. cbn [db fs FilePath closed data locked file fd_open wbuf werr].
  intros (Hc & Hl & Hf & Ho & Hw & contents & ls & Hp & Hs & Hn & Hlen & Hr) Ha Hle Hrep.
  repeat split; try assumption.
  exists contents, (ls ++ [line_of e])%list. split; [exact Hp|]. split; [|split; [|split]].
  - rewrite <- string_app_assoc, Hs, map_app, join_app. cbn [map join foldr].
    rewrite toBytes_line_of. unfold terminated. rewrite string_app_nil. reflexivity.
  - apply Forall_app. split; [exact Hn|]. constructor; [|constructor].
    apply no_newline_line_of. destruct Ha as [-> | ->]; reflexivity.
  - apply Forall_app. split; [exact Hlen|]. constructor; [exact Hle|constructor].
  - rewrite replay_app, Hr. exact Hrep.
Qed.

(** [Close] of an open store whose flush and close succeed: the buffer is
    written at the end of the file (nothing is written when it is empty)
    and the store is left closed and empty. *)
Lemma Close_flushes env (fs0 : FS) d :
  closed d = false -> locked d = false -> file d = Some (FilePath d) ->
  fd_open d = true -> werr d = None -> flush_res env = None -> close_res env = None ->
  Close env (mkWorld fs0 d)
  = Done None (mkWorld (match wbuf d with
                        | EmptyString => fs0
                        | _ => <[FilePath d := default EmptyString (fs0 !! FilePath d) ++ wbuf d]> fs0
                        end)
                       (mkDB (FilePath d) true ∅ false None false EmptyString None)).
Proof.
  intros Hc Hl Hf Ho Hw Hfl Hcl. unfold Close, writer_Flush, file_Close. cbn [db].
  rewrite Hl, Hc, Hw. destruct (wbuf d) as [|ch r] eqn:Hb.
  - cbn. rewrite Ho. cbn. rewrite Hcl. reflexivity.
  - rewrite Hf. cbn. rewrite ?Ho. cbn. rewrite ?Hfl. cbn. rewrite ?Ho. cbn. rewrite ?Hcl. reflexivity.
Qed.

Lemma string_neq_bak (path : string) : path <> path ++ ".bak".
Proof.
  intros H. apply (f_equal String.length) in H. rewrite string_length_app in H.
  cbn [String.length] in H. lia.
Qed.

Lemma dropCR_addCR (l : string) : dropCR (l ++ String "013" EmptyString) = l.
Proof.
  induction l as [|c r IHr]; [reflexivity|].
  rewrite app_String. destruct r as [|c' r'].
  - reflexivity.
  - rewrite app_String in *.
    change (dropCR (String c (String c' (r' ++ String "013" EmptyString))))
      with (String c (dropCR (String c' (r' ++ String "013" EmptyString)))).
    rewrite IHr. reflexivity.
Qed.

(** [PutObject] of an absent key on an open store. *)
Lemma put_new_key_visible_core env w k v r w' :
  locked (db w) = false -> closed (db w) = false -> data (db w) !! k = None ->
  PutObject env k v w = Done r w' ->
  GetObject k w' = Done (Ok v) w' /\ Has k w' = Done true w' /\
  Size w' = Done (S (size (data (db w)))) w' /\
  (forall k', k' <> k -> data (db w') !! k' = data (db w) !! k') /\ fs w' = fs w.
Proof.
  intros Hl Hc Hk HP. unfold PutObject in HP. rewrite Hl, Hc, Hk in HP.
  destruct (appendEntry env _ _) as [err d2] eqn:Ha. injection HP as <- <-.
  pose proof (writer_Write_fields env (set_data (db w) (<[k := v]> (data (db w))))
                (toBytes (newEntry Put k v))) as F.
  unfold appendEntry in Ha. rewrite Ha in F. cbn [snd set_data FilePath closed data locked file fd_open] in F.
  destruct F as (_ & Fc & Fd & Fl & _).
  unfold GetObject, Has, Size. cbn [db fs]. rewrite Fl, Fc, Fd, Hl, Hc, lookup_insert_eq.
  split; [reflexivity|]. split.
  { rewrite bool_decide_eq_true_2; [reflexivity|]. eauto. }
  split; [rewrite map_size_insert_None by exact Hk; reflexivity|].
  split; [|reflexivity]. intros k' Hne. apply lookup_insert_ne. congruence.
Qed.

End ExtraFacts.

(* ================================================================== *)
(** * The claims *)

Module Claims.
Import Base64 Base64Facts EntryFacts StoreFacts LogFacts CompactionFacts.

(** C1: for an entry whose action is [Put] or [Del], with any key and any
    value, [newEntryFromLine] decodes the line written by [toBytes] back to
    the same entry: the line as the scanner hands it over (without its
    '\n'), and also the full output of [toBytes]. *)
Theorem toBytes_newEntryFromLine_roundtrip (e : entry) :
  e_action e = Put \/ e_action e = Del ->
  (exists line, toBytes e = line ++ String "010" EmptyString /\ newEntryFromLine line = Ok e)
  /\ newEntryFromLine (toBytes e) = Ok e.
Proof.
  destruct e as [a k v]; cbn [e_action]. intros Hact.
  assert (Ha : no_sep "," a = true) by (destruct Hact as [-> | ->]; reflexivity).
  split.
  - exists (line_of (newEntry a k v)). split; [apply toBytes_line_of|].
    unfold line_of; cbn [e_action e_key e_value].
    rewrite <- (string_app_nil (EncodeToString v)).
    rewrite newEntryFromLine_fields; [|exact Ha|reflexivity|].
    + rewrite string_of_list_byte_of_string. reflexivity.
    + rewrite string_app_nil. apply DecodeString_EncodeToString.
  - unfold toBytes; cbn [e_action e_key e_value].
    rewrite newEntryFromLine_fields; [|exact Ha|reflexivity|apply DecodeString_newline].
    rewrite string_of_list_byte_of_string. reflexivity.
Qed.


Lemma toBytes_newEntryFromLine_roundtrip_witness :
  (e_action entry_tricky = Put \/ e_action entry_tricky = Del) /\
  ((exists line, toBytes entry_tricky = line ++ String "010" EmptyString
                 /\ newEntryFromLine line = Ok entry_tricky)
   /\ newEntryFromLine (toBytes entry_tricky) = Ok entry_tricky).
Proof.
  split; [left; reflexivity|].
  apply (toBytes_newEntryFromLine_roundtrip entry_tricky). left; reflexivity.
Defined.

(** C3 (amended): after a [Close] that marked the store closed (every
    [Close] whose flush succeeded), [PutObject], [GetObject] and
    [DeleteObject] return [ErrClose], [Has] returns false and a second
    [Close] returns [ErrClose]; [Size] has no error result and returns 0,
    and [Clear] returns normally and changes nothing. *)
Theorem closed_store_contract env w r w' :
  locked (db w) = false -> closed (db w) = false ->
  Close env w = Done r w' -> closed (db w') = true ->
  locked (db w') = false /\
  forall env' k v,
    PutObject env' k v w' = Done (Some ErrClose) w' /\
    GetObject k w' = Done (Err ErrClose) w' /\
    DeleteObject env' k w' = Done (Some ErrClose) w' /\
    Has k w' = Done false w' /\
    Close env' w' = Done (Some ErrClose) w' /\
    Size w' = Done 0 w' /\
    Clear w' = Done tt w'.
Proof.
  intros Hl Hc HC Hc'. unfold Close in HC. rewrite Hl, Hc in HC.
  destruct (writer_Flush env (fs w) (db w)) as [[ef fs1] d1] eqn:Ef.
  destruct (file_Close env d1) as [ec d2] eqn:Ec.
  pose proof (writer_Flush_fields env (fs w) (db w)) as F; rewrite Ef in F; cbn in F.
  pose proof (file_Close_fields env d1) as G; rewrite Ec in G; cbn in G.
  destruct ef as [e|].
  - injection HC as <- <-. cbn in Hc'.
    destruct F as (_ & F & _), G as (_ & G & _). congruence.
  - destruct ec; injection HC as <- <-;
      (split; [reflexivity|intros env' k v; repeat split]).
Qed.

Lemma closed_store_contract_witness :
  (locked (db w_hello) = false /\ closed (db w_hello) = false /\
   Close env_ok w_hello = Done None w_hello_closed /\ closed (db w_hello_closed) = true) /\
  (locked (db w_hello_closed) = false /\
   forall env' k v,
    PutObject env' k v w_hello_closed = Done (Some ErrClose) w_hello_closed /\
    GetObject k w_hello_closed = Done (Err ErrClose) w_hello_closed /\
    DeleteObject env' k w_hello_closed = Done (Some ErrClose) w_hello_closed /\
    Has k w_hello_closed = Done false w_hello_closed /\
    Close env' w_hello_closed = Done (Some ErrClose) w_hello_closed /\
    Size w_hello_closed = Done 0 w_hello_closed /\
    Clear w_hello_closed = Done tt w_hello_closed).
Proof.
  assert (H : locked (db w_hello) = false /\ closed (db w_hello) = false /\
   Close env_ok w_hello = Done None w_hello_closed /\ closed (db w_hello_closed) = true)
    by (vm_compute; repeat split).
  split; [exact H|].
  destruct H as (H1 & H2 & H3 & H4).
  exact (closed_store_contract env_ok w_hello None w_hello_closed H1 H2 H3 H4).
Defined.

(** C3, as stated, fails for [Size] and [Clear]: on a closed store [Size]
    returns 0 with no error, exactly what it returns on an open empty store,
    and [Clear] returns normally. *)
Lemma closed_store_size_clear_no_error :
  closed (db w_hello_closed) = true /\ Size w_hello_closed = Done 0 w_hello_closed /\
  Clear w_hello_closed = Done tt w_hello_closed /\
  closed (db w_fresh) = false /\ Size w_fresh = Done 0 w_fresh.
Proof. vm_compute. repeat split. Qed.

(** C4: a log line whose kind token is neither [Put] nor [Del], and that
    passes the earlier steps of decoding (it fits the scanner's buffer and
    splits into three fields whose key and value decode), is rejected with
    [ErrBadFormat]. [newEntryFromLine] takes the token as it is; the
    rejection is the [default] branch of the switch in the replay loop of
    [load], so [Open] of a file holding such a line after lines that
    replay fails with that error, leaving the file system as it was. *)
Theorem load_rejects_unknown_kind env path (fs0 : FS) contents pre l rest m a k v key value :
  fs0 !! path = Some contents -> open_res env = None ->
  raw_lines contents = (pre ++ l :: rest)%list -> replay pre ∅ = Ok m ->
  String.length l < MaxScanTokenSize -> Split (dropCR l) "," = [a; k; v] ->
  DecodeString k = Ok key -> DecodeString v = Ok value ->
  a <> Put -> a <> Del ->
  newEntryFromLine (dropCR l) = Ok (newEntry a (string_of_list_byte key) value) /\
  replay (l :: rest) m = Err ErrBadFormat /\
  Open env path fs0 = (Err (Wrapf "inmemorydb: failed to load database" ErrBadFormat), fs0).
Proof.
  intros Hp Ho Hl Hpre Hlen Hs Hk Hv Ha Hd.
  assert (Hdec : newEntryFromLine (dropCR l) = Ok (newEntry a (string_of_list_byte key) value))
    by (unfold newEntryFromLine; rewrite Hs, Hk, Hv; reflexivity).
  assert (Hr : replay (l :: rest) m = Err ErrBadFormat)
    by (apply (replay_unknown_action l rest m _ Hlen Hdec); assumption).
  split; [exact Hdec|]. split; [exact Hr|].
  apply (Open_replay_error env path fs0 contents); [exact Hp|exact Ho|].
  rewrite Hl, replay_app, Hpre. exact Hr.
Qed.

Lemma load_rejects_unknown_kind_witness :
  (fs_unknown_kind !! "todo.db" = Some log_unknown_kind /\ open_res env_ok = None /\
   raw_lines log_unknown_kind = (["put,MQ==,aGVsbG8="] ++ "xyz,Mg==,d29ybGQ=" :: [])%list /\
   replay ["put,MQ==,aGVsbG8="] ∅ = Ok (<["1" := list_byte_of_string "hello"]> ∅) /\
   String.length "xyz,Mg==,d29ybGQ=" < MaxScanTokenSize /\
   Split (dropCR "xyz,Mg==,d29ybGQ=") "," = ["xyz"; "Mg=="; "d29ybGQ="] /\
   DecodeString "Mg==" = Ok (list_byte_of_string "2") /\
   DecodeString "d29ybGQ=" = Ok (list_byte_of_string "world") /\
   "xyz" <> Put /\ "xyz" <> Del) /\
  (newEntryFromLine (dropCR "xyz,Mg==,d29ybGQ=")
   = Ok (newEntry "xyz" (string_of_list_byte (list_byte_of_string "2")) (list_byte_of_string "world")) /\
   replay ("xyz,Mg==,d29ybGQ=" :: []) (<["1" := list_byte_of_string "hello"]> ∅) = Err ErrBadFormat /\
   Open env_ok "todo.db" fs_unknown_kind
   = (Err (Wrapf "inmemorydb: failed to load database" ErrBadFormat), fs_unknown_kind)).
Proof.
  assert (H1 : fs_unknown_kind !! "todo.db" = Some log_unknown_kind) by reflexivity.
  assert (H2 : open_res env_ok = None) by reflexivity.
  assert (H3 : raw_lines log_unknown_kind = (["put,MQ==,aGVsbG8="] ++ "xyz,Mg==,d29ybGQ=" :: [])%list)
    by (vm_compute; reflexivity).
  assert (H4 : replay ["put,MQ==,aGVsbG8="] ∅ = Ok (<["1" := list_byte_of_string "hello"]> ∅))
    by (vm_compute; reflexivity).
  assert (H5 : String.length "xyz,Mg==,d29ybGQ=" < MaxScanTokenSize)
    by (apply Nat.ltb_lt; vm_compute; reflexivity).
  assert (H6 : Split (dropCR "xyz,Mg==,d29ybGQ=") "," = ["xyz"; "Mg=="; "d29ybGQ="])
    by (vm_compute; reflexivity).
  assert (H7 : DecodeString "Mg==" = Ok (list_byte_of_string "2")) by (vm_compute; reflexivity).
  assert (H8 : DecodeString "d29ybGQ=" = Ok (list_byte_of_string "world")) by (vm_compute; reflexivity).
  assert (H9 : "xyz" <> Put) by discriminate.
  assert (H10 : "xyz" <> Del) by discriminate.
  split; [tauto|].
  exact (load_rejects_unknown_kind env_ok "todo.db" fs_unknown_kind log_unknown_kind
           ["put,MQ==,aGVsbG8="] "xyz,Mg==,d29ybGQ=" [] _ "xyz" "Mg==" "d29ybGQ=" _ _
           H1 H2 H3 H4 H5 H6 H7 H8 H9 H10).
Defined.

(** C7: putting a key that is present returns [ErrAlreadyExists] and leaves
    the whole world (map, buffered log, file system) unchanged, so a
    following [GetObject] still returns the earlier value. *)
Theorem put_existing_key env w k v1 v2 :
  locked (db w) = false -> closed (db w) = false -> data (db w) !! k = Some v1 ->
  PutObject env k v2 w = Done (Some ErrAlreadyExists) w /\ GetObject k w = Done (Ok v1) w.
Proof.
  intros Hl Hc Hk. unfold PutObject, GetObject. rewrite Hl, Hc, Hk. split; reflexivity.
Qed.

Lemma put_existing_key_witness :
  (locked (db w_hello) = false /\ closed (db w_hello) = false /\
   data (db w_hello) !! "1" = Some (list_byte_of_string "hello")) /\
  (PutObject env_ok "1" (list_byte_of_string "bye") w_hello = Done (Some ErrAlreadyExists) w_hello /\
   GetObject "1" w_hello = Done (Ok (list_byte_of_string "hello")) w_hello).
Proof.
  assert (H : locked (db w_hello) = false /\ closed (db w_hello) = false /\
   data (db w_hello) !! "1" = Some (list_byte_of_string "hello")) by (vm_compute; repeat split).
  split; [exact H|]. destruct H as (H1 & H2 & H3).
  exact (put_existing_key env_ok w_hello "1" _ _ H1 H2 H3).
Defined.

(** C9: when the append of a [PutObject] on an absent key fails, the call
    returns that error and the key is in the map all the same. *)
Theorem put_append_failure env w k v e :
  locked (db w) = false -> closed (db w) = false -> data (db w) !! k = None ->
  fst (appendEntry env (set_data (db w) (<[k := v]> (data (db w)))) (newEntry Put k v)) = Some e ->
  exists w', PutObject env k v w = Done (Some e) w' /\ data (db w') !! k = Some v.
Proof.
  intros Hl Hc Hk Ha. unfold PutObject. rewrite Hl, Hc, Hk.
  destruct (appendEntry env _ _) as [err d2] eqn:E. cbn in Ha. subst err.
  eexists; split; [reflexivity|]. cbn.
  pose proof (writer_Write_fields env (set_data (db w) (<[k := v]> (data (db w))))
                (toBytes (newEntry Put k v))) as F.
  unfold appendEntry in E. rewrite E in F. cbn in F. destruct F as (_ & _ & -> & _).
  apply lookup_insert_eq.
Qed.

Lemma put_append_failure_witness :
  (locked (db w_fresh) = false /\ closed (db w_fresh) = false /\ data (db w_fresh) !! "1" = None /\
   fst (appendEntry env_disk_full (set_data (db w_fresh) (<[ "1" := list_byte_of_string "hello"]> (data (db w_fresh))))
          (newEntry Put "1" (list_byte_of_string "hello"))) = Some ENOSPC) /\
  exists w', PutObject env_disk_full "1" (list_byte_of_string "hello") w_fresh = Done (Some ENOSPC) w'
             /\ data (db w') !! "1" = Some (list_byte_of_string "hello").
Proof.
  assert (H : locked (db w_fresh) = false /\ closed (db w_fresh) = false /\ data (db w_fresh) !! "1" = None /\
   fst (appendEntry env_disk_full (set_data (db w_fresh) (<[ "1" := list_byte_of_string "hello"]> (data (db w_fresh))))
          (newEntry Put "1" (list_byte_of_string "hello"))) = Some ENOSPC) by (vm_compute; repeat split).
  split; [exact H|]. destruct H as (H1 & H2 & H3 & H4).
  exact (put_append_failure env_disk_full w_fresh "1" _ ENOSPC H1 H2 H3 H4).
Defined.

(** C10, failing input: [Close] on the store holding "1" -> "hello" in its
    write buffer, on a full disk. The flush fails; the descriptor is closed
    all the same and the flush error is returned, but the store is not
    marked closed and the mutex is left locked, so a second [Close] blocks
    forever instead of returning [ErrClose]. *)
Theorem close_flush_failure_leaves_mutex_locked :
  Close env_disk_full w_hello
    = Done (Some (Wrapf "inmemorydb: unable to flush writer" ENOSPC)) w_hello_flush_failed /\
  fd_open (db w_hello_flush_failed) = false /\
  closed (db w_hello_flush_failed) = false /\
  locked (db w_hello_flush_failed) = true /\
  forall env', Close env' w_hello_flush_failed = Blocked.
Proof.
  split; [vm_compute; reflexivity|].
  split; [vm_compute; reflexivity|].
  split; [vm_compute; reflexivity|].
  split; [vm_compute; reflexivity|].
  intros env'. reflexivity.
Qed.

(** C2, failing input: on a fresh path, [PutObject("k", v)] with [v] 49152
    zero bytes succeeds and [Close] succeeds, but its log line is
    "put,aw==," followed by 65536 base64 characters, longer than
    [bufio.MaxScanTokenSize]; reopening the path fails with [ErrTooLong]
    instead of returning [v]. *)
Theorem put_close_reopen_large_value_fails :
  put_close_reopen env_ok "todo.db" ∅ "k" (repeat "000"%byte (3 * N.to_nat 16384))
  = Some (Err (Wrapf "inmemorydb: failed to load database"
                 (Wrapf "inmemorydb: failed to scan file" ErrTooLong))).
Proof.
  apply put_close_reopen_long_line; [reflexivity|].
  rewrite line_of_length. cbn [e_action e_key e_value].
  rewrite repeat_length.
  replace ((3 * N.to_nat 16384 + 2) / 3) with (N.to_nat 16384)
    by (rewrite Nat.mul_comm, Nat.div_add_l by lia; reflexivity).
  unfold MaxScanTokenSize. lia.
Qed.



(** C5, as stated, fails: a log whose first line has an undecodable key
    and whose second line has two fields makes [Open] fail with the base64
    decode error, not with [ErrBadFormat]. *)


(** C8: [Clear] empties the map only. Afterwards [Size] is 0, the file
    system and the buffered log are untouched, and closing then reopening
    the path gives exactly what it gives without the [Clear]: the
    persisted pairs come back. *)
Theorem clear_memory_only w :
  locked (db w) = false ->
  exists w', Clear w = Done tt w' /\ Size w' = Done 0 w' /\
    fs w' = fs w /\ wbuf (db w') = wbuf (db w) /\ werr (db w') = werr (db w) /\
    forall env env', close_reopen env env' w' = close_reopen env env' w.
Proof.
  intros Hl. unfold Clear. rewrite Hl.
  eexists; split; [reflexivity|].
  split; [unfold Size; cbn; rewrite Hl; reflexivity|].
  split; [reflexivity|]. split; [reflexivity|]. split; [reflexivity|].
  intros env env'. destruct w as [fs0 [p c m l f o b e]]. cbn in Hl. subst l.
  unfold close_reopen, Close, writer_Flush, file_Close, set_data, set_fd_open, set_locked, set_writer.
  destruct c, e, b, f, o; cbn; try reflexivity;
    destruct (flush_res env); cbn; try reflexivity; destruct (close_res env); reflexivity.
Qed.

Lemma clear_memory_only_witness :
  locked (db w_hello) = false /\
  exists w', Clear w_hello = Done tt w' /\ Size w' = Done 0 w' /\
    fs w' = fs w_hello /\ wbuf (db w') = wbuf (db w_hello) /\ werr (db w') = werr (db w_hello) /\
    forall env env', close_reopen env env' w' = close_reopen env env' w_hello.
Proof.
  assert (H : locked (db w_hello) = false) by (vm_compute; reflexivity).
  split; [exact H|]. exact (clear_memory_only w_hello H).
Defined.


(** C6: after [Open] succeeds on an existing log file, compaction has run:
    the log stream (the file at the path followed by the bytes [Shrink] left
    in the writer, which it does not flush) is the [toBytes] lines of a
    sequence of entries that are all Put, have no key twice, and hold
    exactly the key/value pairs of the in-memory map; replaying that stream
    from the beginning gives exactly the in-memory map. *)
Theorem open_compacts_log env path (fs0 : FS) contents d fs1 :
  fs0 !! path = Some contents ->
  Open env path fs0 = (Ok d, fs1) ->
  exists es : list entry,
    default EmptyString (fs1 !! path) ++ wbuf d = join (map toBytes es) /\
    Forall (fun e => e_action e = Put) es /\
    NoDup (map e_key es) /\
    (forall k v, newEntry Put k v ∈ es <-> data d !! k = Some v) /\
    replay (raw_lines (join (map toBytes es))) ∅ = Ok (data d).
Proof.
  intros Hp HO.
  destruct (Open_existing_ok env path fs0 contents d fs1 Hp HO) as (m & Hr & Hf & Hs).
  apply shrink_loop_ok in Hs as [Hb Hd]; [|reflexivity]. cbn [wbuf data] in Hb, Hd.
  exists (map (fun kv => newEntry Put kv.1 kv.2) (map_to_list m)).
  rewrite Hf, Hb, Hd. cbn [default]. rewrite !app_Empty, map_map.
  split; [reflexivity|]. split; [|split; [|split]].
  - apply List.Forall_map, List.Forall_forall. intros kv _. reflexivity.
  - rewrite map_map. cbn [e_key]. apply NoDup_fst_map_to_list.
  - intros k v. split.
    + intros H. apply list_elem_of_In, in_map_iff in H as [[k' v'] [Heq Hin]].
      injection Heq as -> ->. apply elem_of_map_to_list, list_elem_of_In. exact Hin.
    + intros H. apply list_elem_of_In, in_map_iff. exists (k, v). split; [reflexivity|].
      apply list_elem_of_In, elem_of_map_to_list. exact H.
  - rewrite (map_ext _ (fun kv => terminated (put_line kv))) by (intros; apply toBytes_line_of).
    rewrite <- (map_map put_line terminated).
    rewrite raw_lines_join.
    + rewrite replay_puts.
      * rewrite foldl_insert by apply NoDup_fst_map_to_list.
        rewrite list_to_map_to_list, map_union_empty. reflexivity.
      * apply List.Forall_forall. intros [k v] Hin.
        apply (replay_fits _ _ _ Hr (map_Forall_empty _) k v).
        apply elem_of_map_to_list, list_elem_of_In. exact Hin.
    + apply List.Forall_forall. intros l Hin. apply in_map_iff in Hin as [kv [<- _]].
      apply no_newline_line_of. reflexivity.
Qed.

Lemma open_compacts_log_witness :
  exists d fs1,
    fs_compactable !! "todo.db" = Some log_with_delete /\
    Open env_ok "todo.db" fs_compactable = (Ok d, fs1) /\
    exists es : list entry,
      default EmptyString (fs1 !! "todo.db") ++ wbuf d = join (map toBytes es) /\
      Forall (fun e => e_action e = Put) es /\
      NoDup (map e_key es) /\
      (forall k v, newEntry Put k v ∈ es <-> data d !! k = Some v) /\
      replay (raw_lines (join (map toBytes es))) ∅ = Ok (data d).
Proof.
  destruct (Open env_ok "todo.db" fs_compactable) as [[d|e] fs1] eqn:HO.
  - exists d, fs1. split; [reflexivity|]. split; [reflexivity|].
    apply (open_compacts_log env_ok "todo.db" fs_compactable log_with_delete d fs1);
      [reflexivity|exact HO].
  - vm_compute in HO. discriminate.
Defined.

End Claims.

(* ================================================================== *)
(** * Further properties of the package and of its caller *)

Module Extras.
Import Base64 Base64Facts EntryFacts StoreFacts LogFacts CompactionFacts ExtraFacts.

(** Proves [log_inv] of a concrete world, given the file contents and the
    lines that make up the file followed by the buffer. *)
Ltac log_inv_by c ls :=
  unfold log_inv; do 5 (split; [vm_compute; reflexivity|]); exists c, ls;
  split; [vm_compute; reflexivity|]; split; [vm_compute; reflexivity|];
  split; [repeat (constructor; [vm_compute; reflexivity|]); constructor|];
  split; [repeat (constructor; [apply Nat.ltb_lt; vm_compute; reflexivity|]); constructor|];
  vm_compute; reflexivity.

(** [EncodeToString] output decodes back to the input, is [4 * ceil(n/3)]
    characters long, and holds no ',', '\n' or '\r', so it can sit in a
    field of a log line. *)
Theorem EncodeToString_shape (bs : list byte) :
  DecodeString (EncodeToString bs) = Ok bs /\
  String.length (EncodeToString bs) = 4 * ((List.length bs + 2) / 3) /\
  no_sep "," (EncodeToString bs) = true /\ no_sep "010" (EncodeToString bs) = true /\
  no_sep "013" (EncodeToString bs) = true.
Proof.
  split; [apply DecodeString_EncodeToString|]. split.
  - unfold EncodeToString. rewrite encode_length, length_map. reflexivity.
  - split; [apply no_comma_EncodeToString|].
    split; [apply no_newline_EncodeToString|apply no_cr_EncodeToString].
Qed.

(** [DecodeString] accepts only whole padded quanta: once '\r' and '\n'
    are removed, an accepted input is [4 * ceil(n/3)] characters long for
    the [n] bytes it decodes to. *)
Theorem DecodeString_quanta (s : string) (bs : list byte) :
  DecodeString s = Ok bs -> String.length (strip_newlines s) = 4 * ((List.length bs + 2) / 3).
Proof.
  unfold DecodeString. destruct (decode (strip_newlines s)) as [l|] eqn:E; [|discriminate].
  intros H; injection H as <-. rewrite <- (decode_length _ _ E), encode_length, length_map.
  reflexivity.
Qed.

Lemma DecodeString_quanta_witness :
  DecodeString (String "010" "aGVs" ++ String "013" (String "010" "bG8=")) = Ok (list_byte_of_string "hello") /\
  String.length (strip_newlines (String "010" "aGVs" ++ String "013" (String "010" "bG8=")))
  = 4 * ((List.length (list_byte_of_string "hello") + 2) / 3).
Proof.
  split; [vm_compute; reflexivity|].
  apply DecodeString_quanta. vm_compute. reflexivity.
Defined.


(** [strings.Split] returns one more piece than there are separators, and
    joining the pieces with the separator gives the string back. *)
Theorem Split_pieces (s : string) (sep : ascii) :
  join_sep sep (Split s sep) = s /\ List.length (Split s sep) = S (count_char sep s).
Proof. split; [apply Split_join_sep|apply count_Split]. Qed.

(** [newEntryFromLine] fails with the bare [ErrBadFormat] exactly when the
    line does not hold exactly two commas; its other errors are the base64
    error wrapped with the field that failed. *)
Theorem newEntryFromLine_bad_format_iff (line : string) :
  (newEntryFromLine line = Err ErrBadFormat <-> count_char "," line <> 2) /\
  forall e, newEntryFromLine line = Err e -> count_char "," line = 2 ->
    e = Wrapf "inmemorydb: unable to decode key" CorruptInputError \/
    e = Wrapf "inmemorydb: unable to decode value" CorruptInputError.
Proof.
  split.
  2: {
    intros e He Hc. destruct (newEntryFromLine_Err line e He) as [[Hl _]|[_ H]]; [|exact H].
    rewrite count_Split, Hc in Hl. contradiction. }
  split.
  - intros H Hc. unfold newEntryFromLine in H.
    pose proof (count_Split line ",") as Hl. rewrite Hc in Hl.
    destruct (Split line ",") as [|a [|k [|v [|x xs]]]]; try discriminate.
    destruct (DecodeString k); [|discriminate].
    destruct (DecodeString v); discriminate.
  - intros Hc. apply newEntryFromLine_field_count. rewrite count_Split. lia.
Qed.

(** The scanner hands over the lines of a file without their '\n'; a last
    line without a final '\n' is still handed over. *)
Theorem raw_lines_lines (ls : list string) (l : string) :
  Forall (fun x => no_sep "010" x = true) ls -> no_sep "010" l = true ->
  raw_lines (join (map terminated ls)) = ls /\
  (l <> EmptyString -> raw_lines (join (map terminated ls) ++ l) = (ls ++ [l])%list).
Proof.
  intros Hls Hl. split; [apply raw_lines_join; exact Hls|].
  intros Hne. unfold raw_lines. rewrite Split_join_prefix by exact Hls.
  rewrite Split_no_sep by exact Hl. rewrite last_snoc.
  destruct l; [contradiction|reflexivity].
Qed.

Lemma raw_lines_lines_witness :
  Forall (fun x => no_sep "010" x = true) log_three_keys /\ no_sep "010" "put,MQ==" = true /\
  raw_lines (join (map terminated log_three_keys)) = log_three_keys /\
  ("put,MQ==" <> EmptyString ->
   raw_lines (join (map terminated log_three_keys) ++ "put,MQ==") = (log_three_keys ++ ["put,MQ=="])%list).
Proof.
  split; [repeat constructor|]. split; [reflexivity|].
  apply raw_lines_lines; [repeat constructor|reflexivity].
Defined.


(** A log written with "\r\n" line ends replays as with "\n" ones, as long
    as the longer lines still fit the scanner's buffer. *)
Theorem replay_crlf (ls : list string) (m : gmap string (list byte)) :
  Forall (fun l => String.length l + 1 < MaxScanTokenSize) ls ->
  Forall (fun l => dropCR l = l) ls ->
  replay (map (fun l => l ++ String "013" EmptyString) ls) m = replay ls m.
Proof.
  intros Hlen Hcr. revert m. induction ls as [|l ls IH]; intros m; [reflexivity|].
  inversion Hlen as [|? ? Hl Hlen']; subst. inversion Hcr as [|? ? Hc Hcr']; subst.
  cbn [map replay]. rewrite string_length_app. cbn [String.length].
  assert (H1 : Nat.leb MaxScanTokenSize (String.length l + 1) = false) by (apply Nat.leb_gt; exact Hl).
  assert (H2 : Nat.leb MaxScanTokenSize (String.length l) = false) by (apply Nat.leb_gt; lia).
  rewrite H1, H2, dropCR_addCR, Hc.
  destruct (newEntryFromLine l) as [en|e]; [|reflexivity].
  destruct (String.eqb (e_action en) Put); [apply IH; assumption|].
  destruct (String.eqb (e_action en) Del); [apply IH; assumption|reflexivity].
Qed.

Lemma replay_crlf_witness :
  Forall (fun l => String.length l + 1 < MaxScanTokenSize) log_three_keys /\
  Forall (fun l => dropCR l = l) log_three_keys /\
  replay (map (fun l => l ++ String "013" EmptyString) log_three_keys) ∅ = replay log_three_keys ∅.
Proof.
  assert (Hlen : Forall (fun l => String.length l + 1 < MaxScanTokenSize) log_three_keys)
    by (unfold log_three_keys; repeat (constructor; [apply Nat.ltb_lt; vm_compute; reflexivity|]); constructor).
  assert (Hcr : Forall (fun l => dropCR l = l) log_three_keys)
    by (unfold log_three_keys; repeat (constructor; [reflexivity|]); constructor).
  split; [exact Hlen|]. split; [exact Hcr|].
  apply replay_crlf; [exact Hlen|exact Hcr].
Defined.

(** On a store whose mutex is free, [Has] reports true exactly when
    [GetObject] returns a value. *)
Theorem Has_iff_GetObject w k :
  locked (db w) = false ->
  (Has k w = Done true w <-> exists v, GetObject k w = Done (Ok v) w).
Proof.
  intros Hl. unfold Has, GetObject. rewrite Hl.
  destruct (closed (db w)).
  - split; [intros H; injection H as H; discriminate|intros [v H]; discriminate].
  - destruct (data (db w) !! k) as [v|] eqn:E.
    + split; [intros _; exists v; reflexivity|intros _].
      rewrite bool_decide_eq_true_2; [reflexivity|]. eauto.
    + split; [|intros [v H]; discriminate].
      rewrite bool_decide_eq_false_2; [intros H; injection H as H; discriminate|].
      intros [v Hv]. discriminate.
Qed.

Lemma Has_iff_GetObject_witness :
  locked (db w_hello) = false /\
  (Has "1" w_hello = Done true w_hello <-> exists v, GetObject "1" w_hello = Done (Ok v) w_hello).
Proof. split; [reflexivity|]. apply Has_iff_GetObject. reflexivity. Defined.

(** After [PutObject] of an absent key on an open store, whether or not
    the append failed, [GetObject] returns the value, [Has] is true, [Size]
    has grown by one and the other keys are untouched. *)
Theorem put_new_key_visible env w k v r w' :
  locked (db w) = false -> closed (db w) = false -> data (db w) !! k = None ->
  PutObject env k v w = Done r w' ->
  GetObject k w' = Done (Ok v) w' /\ Has k w' = Done true w' /\
  Size w' = Done (S (size (data (db w)))) w' /\
  (forall k', k' <> k -> data (db w') !! k' = data (db w) !! k').
Proof.
  intros Hl Hc Hk HP.
  destruct (put_new_key_visible_core env w k v r w' Hl Hc Hk HP) as (H1 & H2 & H3 & H4 & _).
  tauto.
Qed.

Lemma put_new_key_visible_witness :
  locked (db w_hello) = false /\ closed (db w_hello) = false /\ data (db w_hello) !! "2" = None /\
  PutObject env_ok "2" (list_byte_of_string "world") w_hello = Done None w_hello_world /\
  (GetObject "2" w_hello_world = Done (Ok (list_byte_of_string "world")) w_hello_world /\
   Has "2" w_hello_world = Done true w_hello_world /\
   Size w_hello_world = Done (S (size (data (db w_hello)))) w_hello_world /\
   (forall k', k' <> "2" -> data (db w_hello_world) !! k' = data (db w_hello) !! k')).
Proof.
  assert (HP : PutObject env_ok "2" (list_byte_of_string "world") w_hello = Done None w_hello_world)
    by (vm_compute; reflexivity).
  split; [reflexivity|]. split; [reflexivity|]. split; [reflexivity|]. split; [exact HP|].
  apply (put_new_key_visible env_ok w_hello "2" (list_byte_of_string "world") None w_hello_world);
    [reflexivity|reflexivity|reflexivity|exact HP].
Defined.

(** [DeleteObject] on an open store: an absent key gives [ErrNotFound] and
    changes nothing; a present key is removed from the map whether or not
    the append fails, after which [GetObject] reports [ErrNotFound] and
    [Size] has dropped by one. *)
Theorem delete_behaviour env w k :
  locked (db w) = false -> closed (db w) = false ->
  (data (db w) !! k = None -> DeleteObject env k w = Done (Some ErrNotFound) w) /\
  (forall r w', is_Some (data (db w) !! k) -> DeleteObject env k w = Done r w' ->
     data (db w') = delete k (data (db w)) /\ GetObject k w' = Done (Err ErrNotFound) w' /\
     Size w' = Done (pred (size (data (db w)))) w').
Proof.
  intros Hl Hc. unfold DeleteObject. rewrite Hl, Hc. split.
  - intros Hk. rewrite Hk. reflexivity.
  - intros r w' [v Hk] HD. rewrite Hk in HD.
    destruct (appendEntry env _ _) as [err d2] eqn:Ha. injection HD as <- <-.
    pose proof (writer_Write_fields env (set_data (db w) (delete k (data (db w))))
                  (toBytes (newEntry Del k []))) as F.
    unfold appendEntry in Ha. rewrite Ha in F. cbn [snd set_data FilePath closed data locked file fd_open] in F.
    destruct F as (_ & Fc & Fd & Fl & _).
    unfold GetObject, Size. cbn [db]. rewrite Fl, Fc, Fd, Hl, Hc, lookup_delete_eq.
    split; [reflexivity|]. split; [reflexivity|].
    rewrite map_size_delete_Some by eauto. reflexivity.
Qed.

Lemma delete_behaviour_witness :
  locked (db w_hello) = false /\ closed (db w_hello) = false /\
  ((data (db w_hello) !! "1" = None -> DeleteObject env_ok "1" w_hello = Done (Some ErrNotFound) w_hello) /\
   (forall r w', is_Some (data (db w_hello) !! "1") -> DeleteObject env_ok "1" w_hello = Done r w' ->
      data (db w') = delete "1" (data (db w_hello)) /\ GetObject "1" w' = Done (Err ErrNotFound) w' /\
      Size w' = Done (pred (size (data (db w_hello)))) w')).
Proof.
  split; [reflexivity|]. split; [reflexivity|].
  apply delete_behaviour; reflexivity.
Defined.

(** [PutObject] of an absent key followed by [DeleteObject] of the same key
    gives back the map the store had, whatever the two appends returned. *)
Theorem put_then_delete env w k v r1 w1 r2 w2 :
  locked (db w) = false -> closed (db w) = false -> data (db w) !! k = None ->
  PutObject env k v w = Done r1 w1 -> DeleteObject env k w1 = Done r2 w2 ->
  data (db w2) = data (db w).
Proof.
  intros Hl Hc Hk HP HD. unfold PutObject in HP. rewrite Hl, Hc, Hk in HP.
  destruct (appendEntry env _ _) as [err d1] eqn:Ha. injection HP as <- <-.
  pose proof (writer_Write_fields env (set_data (db w) (<[k := v]> (data (db w))))
                (toBytes (newEntry Put k v))) as F.
  unfold appendEntry in Ha. rewrite Ha in F. cbn [snd set_data FilePath closed data locked file fd_open] in F.
  destruct F as (_ & Fc & Fd & Fl & _).
  unfold DeleteObject in HD. cbn [db] in HD. rewrite Fl, Fc, Fd, Hl, Hc, lookup_insert_eq in HD.
  destruct (appendEntry env _ _) as [err2 d2] eqn:Ha2. injection HD as <- <-.
  pose proof (writer_Write_fields env (set_data d1 (delete k (<[k := v]> (data (db w)))))
                (toBytes (newEntry Del k []))) as G.
  unfold appendEntry in Ha2. rewrite Ha2 in G. cbn [snd set_data data] in G.
  destruct G as (_ & _ & Gd & _). cbn [db]. rewrite Gd. apply delete_insert_id. exact Hk.
Qed.

Lemma put_then_delete_witness :
  locked (db w_hello) = false /\ closed (db w_hello) = false /\ data (db w_hello) !! "2" = None /\
  PutObject env_ok "2" (list_byte_of_string "world") w_hello = Done None w_hello_world /\
  DeleteObject env_ok "2" w_hello_world
  = Done None (after (DeleteObject env_ok "2" w_hello_world) w_hello_world) /\
  data (db (after (DeleteObject env_ok "2" w_hello_world) w_hello_world)) = data (db w_hello).
Proof.
  assert (HP : PutObject env_ok "2" (list_byte_of_string "world") w_hello = Done None w_hello_world)
    by (vm_compute; reflexivity).
  assert (HD : DeleteObject env_ok "2" w_hello_world
               = Done None (after (DeleteObject env_ok "2" w_hello_world) w_hello_world))
    by (vm_compute; reflexivity).
  split; [reflexivity|]. split; [reflexivity|]. split; [reflexivity|].
  split; [exact HP|]. split; [exact HD|].
  apply (put_then_delete env_ok w_hello "2" (list_byte_of_string "world") None w_hello_world None _);
    [reflexivity|reflexivity|reflexivity|exact HP|exact HD].
Defined.

(** A successful [Open] leaves a store in [log_inv]: open, mutex free,
    writing to the file at its path, and the file followed by the buffer
    replays to the map. *)
Theorem open_log_inv env path (fs0 : FS) d fs1 :
  Open env path fs0 = (Ok d, fs1) -> log_inv (mkWorld fs1 d).
Proof.
  intros HO. destruct (fs0 !! path) as [contents|] eqn:Hp.
  - destruct (Open_existing_ok env path fs0 contents d fs1 Hp HO) as (m & Hr & Hf & Hs).
    pose proof Hs as Hs'.
    apply shrink_loop_ok in Hs as [Hb Hd]; [|reflexivity].
    apply shrink_loop_fields in Hs' as (HF & Hc & Hl & Hfi & Ho & Hw); [|reflexivity].
    cbn [wbuf data FilePath closed locked file fd_open] in *.
    unfold log_inv. cbn [db fs]. rewrite HF, Hc, Hl, Hfi, Ho, Hw.
    repeat split. exists EmptyString, (map put_line (map_to_list m)).
    split; [exact Hf|]. split; [|split; [|split]].
    + rewrite Hb, !app_Empty. apply join_toBytes_puts.
    + apply put_lines_no_newline.
    + apply put_lines_fit. apply (replay_fits _ _ _ Hr (map_Forall_empty _)).
    + rewrite Hd. apply replay_compacted. apply (replay_fits _ _ _ Hr (map_Forall_empty _)).
  - unfold Open, load in HO. cbn [FilePath] in HO. rewrite Hp in HO.
    destruct (create_res env); [discriminate|]. injection HO as <- <-.
    unfold log_inv. cbn [db fs closed locked file fd_open werr wbuf data FilePath]. repeat split. exists EmptyString, [].
    split; [apply lookup_insert_eq|]. repeat split; constructor.
Qed.

Lemma open_log_inv_witness :
  exists d fs1, Open env_ok "todo.db" fs_compactable = (Ok d, fs1) /\ log_inv (mkWorld fs1 d).
Proof.
  destruct (Open env_ok "todo.db" fs_compactable) as [[d|e] fs1] eqn:HO.
  - exists d, fs1. split; [reflexivity|]. apply (open_log_inv env_ok "todo.db" fs_compactable d fs1 HO).
  - vm_compute in HO. discriminate.
Defined.

(** A successful [PutObject] keeps [log_inv], provided its log line fits
    the scanner's buffer. *)
Theorem put_log_inv env w k v w' :
  log_inv w -> String.length (line_of (newEntry Put k v)) < MaxScanTokenSize ->
  PutObject env k v w = Done None w' -> log_inv w'.
Proof.
  destruct w as [fs0 d]. intros Hi Hlen HP.
  pose proof Hi as Hi0. destruct Hi0 as (Hc & Hl & _ & _ & Hw & _). cbn [db] in Hc, Hl, Hw.
  unfold PutObject in HP. cbn [db fs] in HP. rewrite Hl, Hc in HP.
  destruct (data d !! k) eqn:Hk; [discriminate|].
  unfold appendEntry, writer_Write in HP. cbn [set_data werr] in HP. rewrite Hw in HP.
  destruct (write_res env); [discriminate|]. injection HP as <-.
  apply (log_inv_extend fs0 d (<[k := v]> (data d)) (newEntry Put k v) Hi);
    [left; reflexivity|exact Hlen|apply replay_put_line; exact Hlen].
Qed.

Lemma put_log_inv_witness :
  log_inv w_fresh /\ String.length (line_of (newEntry Put "1" (list_byte_of_string "hello"))) < MaxScanTokenSize /\
  PutObject env_ok "1" (list_byte_of_string "hello") w_fresh = Done None w_hello /\ log_inv w_hello.
Proof.
  assert (Hi : log_inv w_fresh) by (log_inv_by EmptyString (@nil string)).
  assert (Hlen : String.length (line_of (newEntry Put "1" (list_byte_of_string "hello"))) < MaxScanTokenSize)
    by (apply Nat.ltb_lt; vm_compute; reflexivity).
  assert (HP : PutObject env_ok "1" (list_byte_of_string "hello") w_fresh = Done None w_hello) by (vm_compute; reflexivity).
  split; [exact Hi|]. split; [exact Hlen|]. split; [exact HP|].
  apply (put_log_inv env_ok w_fresh "1" (list_byte_of_string "hello") w_hello Hi Hlen HP).
Defined.

(** A successful [DeleteObject] keeps [log_inv], provided its log line fits
    the scanner's buffer. *)
Theorem delete_log_inv env w k w' :
  log_inv w -> String.length (line_of (newEntry Del k [])) < MaxScanTokenSize ->
  DeleteObject env k w = Done None w' -> log_inv w'.
Proof.
  destruct w as [fs0 d]. intros Hi Hlen HD.
  pose proof Hi as Hi0. destruct Hi0 as (Hc & Hl & _ & _ & Hw & _). cbn [db] in Hc, Hl, Hw.
  unfold DeleteObject in HD. cbn [db fs] in HD. rewrite Hl, Hc in HD.
  destruct (data d !! k) eqn:Hk; [|discriminate].
  unfold appendEntry, writer_Write in HD. cbn [set_data werr] in HD. rewrite Hw in HD.
  destruct (write_res env); [discriminate|]. injection HD as <-.
  apply (log_inv_extend fs0 d (delete k (data d)) (newEntry Del k []) Hi);
    [right; reflexivity|exact Hlen|apply replay_del_line; exact Hlen].
Qed.

Lemma delete_log_inv_witness :
  log_inv w_hello /\ String.length (line_of (newEntry Del "1" [])) < MaxScanTokenSize /\
  DeleteObject env_ok "1" w_hello = Done None w_hello_deleted /\ log_inv w_hello_deleted.
Proof.
  assert (Hi : log_inv w_hello)
    by (log_inv_by EmptyString [line_of (newEntry Put "1" (list_byte_of_string "hello"))]).
  assert (Hlen : String.length (line_of (newEntry Del "1" [])) < MaxScanTokenSize)
    by (apply Nat.ltb_lt; vm_compute; reflexivity).
  assert (HD : DeleteObject env_ok "1" w_hello = Done None w_hello_deleted) by (vm_compute; reflexivity).
  split; [exact Hi|]. split; [exact Hlen|]. split; [exact HD|].
  apply (delete_log_inv env_ok w_hello "1" w_hello_deleted Hi Hlen HD).
Defined.

(** On a store in [log_inv], a [Close] whose flush and file close succeed,
    followed by an [Open] of the same path whose system calls succeed,
    gives back a store with the same map. *)
Theorem close_reopen_recovers env env' w :
  log_inv w -> flush_res env = None -> close_res env = None ->
  open_res env' = None -> close_res env' = None -> rename_res env' = None ->
  create_res env' = None -> write_res env' = None ->
  exists w' d fs2, Close env w = Done None w' /\
    Open env' (FilePath (db w)) (fs w') = (Ok d, fs2) /\ data d = data (db w).
Proof.
  destruct w as [fs0 d]. cbn [db fs].
  intros (Hc & Hl & Hf & Ho & Hw & contents & ls & Hp & Hs & Hn & _ & Hr) Hfl Hcl Ho' Hc' Hr' Hcr' Hw'.
  cbn [db fs] in *. rewrite (Close_flushes env fs0 d Hc Hl Hf Ho Hw Hfl Hcl).
  eexists. cbn [fs].
  assert (Hp' : (match wbuf d with
                 | EmptyString => fs0
                 | _ => <[FilePath d := default EmptyString (fs0 !! FilePath d) ++ wbuf d]> fs0
                 end) !! FilePath d = Some (contents ++ wbuf d)).
  { destruct (wbuf d); [rewrite string_app_nil; exact Hp|].
    rewrite lookup_insert_eq, Hp. reflexivity. }
  assert (Hrep : replay (raw_lines (contents ++ wbuf d)) ∅ = Ok (data d))
    by (rewrite Hs, raw_lines_join by exact Hn; exact Hr).
  destruct (Open_existing_success env' (FilePath d) _ _ (data d) Ho' Hc' Hr' Hcr' Hw' Hp' Hrep)
    as (d2 & fs2 & HO & Hd).
  exists d2, fs2. split; [reflexivity|]. split; [exact HO|exact Hd].
Qed.

Lemma close_reopen_recovers_witness :
  log_inv w_hello /\ flush_res env_ok = None /\ close_res env_ok = None /\
  open_res env_ok = None /\ close_res env_ok = None /\ rename_res env_ok = None /\
  create_res env_ok = None /\ write_res env_ok = None /\
  exists w' d fs2, Close env_ok w_hello = Done None w' /\
    Open env_ok (FilePath (db w_hello)) (fs w') = (Ok d, fs2) /\ data d = data (db w_hello).
Proof.
  assert (Hi : log_inv w_hello)
    by (log_inv_by EmptyString [line_of (newEntry Put "1" (list_byte_of_string "hello"))]).
  split; [exact Hi|]. do 7 (split; [reflexivity|]).
  apply (close_reopen_recovers env_ok env_ok w_hello Hi); reflexivity.
Defined.

(** [Open] of a path that has a file, when it succeeds, moves the old file
    to [path.bak] (replacing any earlier one) and touches no path but
    [path] and [path.bak]; what [path] holds, followed by the writer's
    buffer, is one put line per key of the loaded map. *)
Theorem open_moves_log_to_bak env path (fs0 : FS) contents d fs1 :
  fs0 !! path = Some contents -> Open env path fs0 = (Ok d, fs1) ->
  fs1 !! (path ++ ".bak") = Some contents /\
  (forall p, p <> path -> p <> path ++ ".bak" -> fs1 !! p = fs0 !! p) /\
  exists c, fs1 !! path = Some c /\
    c ++ wbuf d = join (map terminated (map put_line (map_to_list (data d)))).
Proof.
  intros Hp HO. pose proof (Open_existing_fs env path fs0 contents d fs1 Hp HO) as Hfs.
  destruct (Open_existing_ok env path fs0 contents d fs1 Hp HO) as (m & Hr & Hf & Hs).
  apply shrink_loop_ok in Hs as [Hb Hd]; [|reflexivity].
  cbn [wbuf data] in Hb, Hd.
  split; [|split].
  - rewrite Hfs, lookup_insert_ne by apply string_neq_bak. apply lookup_insert_eq.
  - intros p H1 H2. rewrite Hfs. rewrite lookup_insert_ne by congruence.
    rewrite lookup_insert_ne by congruence. apply lookup_delete_ne. congruence.
  - exists EmptyString. split; [exact Hf|].
    rewrite Hb, Hd, !app_Empty. apply join_toBytes_puts.
Qed.

Lemma open_moves_log_to_bak_witness :
  exists d fs1, fs_compactable !! "todo.db" = Some log_with_delete /\
    Open env_ok "todo.db" fs_compactable = (Ok d, fs1) /\
    (fs1 !! ("todo.db" ++ ".bak") = Some log_with_delete /\
     (forall p, p <> "todo.db" -> p <> "todo.db" ++ ".bak" -> fs1 !! p = fs_compactable !! p) /\
     exists c, fs1 !! "todo.db" = Some c /\
       c ++ wbuf d = join (map terminated (map put_line (map_to_list (data d))))).
Proof.
  destruct (Open env_ok "todo.db" fs_compactable) as [[d|e] fs1] eqn:HO.
  - exists d, fs1. split; [reflexivity|]. split; [reflexivity|].
    apply (open_moves_log_to_bak env_ok "todo.db" fs_compactable log_with_delete d fs1);
      [reflexivity|exact HO].
  - vm_compute in HO. discriminate.
Defined.

(** [Close] of an open store whose flush and file close succeed writes the
    buffered bytes at the end of the file (nothing when the buffer is
    empty), and leaves the store closed, unlocked, empty and without a
    file. *)
Theorem close_writes_buffer env w :
  closed (db w) = false -> locked (db w) = false -> file (db w) = Some (FilePath (db w)) ->
  fd_open (db w) = true -> werr (db w) = None -> flush_res env = None -> close_res env = None ->
  Close env w
  = Done None (mkWorld (match wbuf (db w) with
                        | EmptyString => fs w
                        | _ => <[FilePath (db w) := default EmptyString (fs w !! FilePath (db w))
                                                    ++ wbuf (db w)]> (fs w)
                        end)
                       (mkDB (FilePath (db w)) true ∅ false None false EmptyString None)).
Proof. destruct w as [fs0 d]. apply Close_flushes. Qed.

Lemma close_writes_buffer_witness :
  closed (db w_hello) = false /\ locked (db w_hello) = false /\
  file (db w_hello) = Some (FilePath (db w_hello)) /\ fd_open (db w_hello) = true /\
  werr (db w_hello) = None /\ flush_res env_ok = None /\ close_res env_ok = None /\
  Close env_ok w_hello
  = Done None (mkWorld (match wbuf (db w_hello) with
                        | EmptyString => fs w_hello
                        | _ => <[FilePath (db w_hello) := default EmptyString (fs w_hello !! FilePath (db w_hello))
                                                        ++ wbuf (db w_hello)]> (fs w_hello)
                        end)
                       (mkDB (FilePath (db w_hello)) true ∅ false None false EmptyString None)).
Proof.
  do 7 (split; [reflexivity|]).
  apply close_writes_buffer; reflexivity.
Defined.

(** When [Shrink], run by [Open] on an existing file, cannot create the new
    file, [Open] fails after the rename: the log is left only at
    [path.bak], and a later [Open] of the path that can create files
    starts from an empty store. *)
Theorem open_shrink_create_failure env path (fs0 : FS) contents m e :
  open_res env = None -> close_res env = None -> rename_res env = None -> create_res env = Some e ->
  fs0 !! path = Some contents -> replay (raw_lines contents) ∅ = Ok m ->
  Open env path fs0
  = (Err (Wrapf "inmemorydb: failed to load database"
            (Wrapf "inmemorydb: unable to create file while shrinking" e)),
     <[path ++ ".bak" := contents]> (delete path fs0)) /\
  fst (Open env_ok path (<[path ++ ".bak" := contents]> (delete path fs0)))
  = Ok (mkDB path false ∅ false (Some path) true EmptyString None).
Proof.
  intros Ho Hc Hr Hcr Hp Hrep. split.
  - unfold Open, load. cbn [FilePath]. rewrite Hp, Ho. cbn [set_file data]. rewrite Hrep.
    unfold Shrink, file_Close. cbn. rewrite Hc, Hr, Hp, Hcr. reflexivity.
  - rewrite Open_fresh; [reflexivity| |reflexivity].
    rewrite lookup_insert_ne by (apply not_eq_sym, string_neq_bak). apply lookup_delete_eq.
Qed.

Lemma open_shrink_create_failure_witness :
  open_res env_no_create = None /\ close_res env_no_create = None /\
  rename_res env_no_create = None /\ create_res env_no_create = Some EACCES /\
  fs_compactable !! "todo.db" = Some log_with_delete /\
  replay (raw_lines log_with_delete) ∅ = Ok (data (db (world_of (Open env_ok "todo.db" fs_compactable)))) /\
  (Open env_no_create "todo.db" fs_compactable
   = (Err (Wrapf "inmemorydb: failed to load database"
             (Wrapf "inmemorydb: unable to create file while shrinking" EACCES)),
      <["todo.db" ++ ".bak" := log_with_delete]> (delete "todo.db" fs_compactable)) /\
   fst (Open env_ok "todo.db" (<["todo.db" ++ ".bak" := log_with_delete]> (delete "todo.db" fs_compactable)))
   = Ok (mkDB "todo.db" false ∅ false (Some "todo.db") true EmptyString None)).
Proof.
  assert (Hrep : replay (raw_lines log_with_delete) ∅
                 = Ok (data (db (world_of (Open env_ok "todo.db" fs_compactable)))))
    by (vm_compute; reflexivity).
  do 5 (split; [reflexivity|]). split; [exact Hrep|].
  apply (open_shrink_create_failure env_no_create "todo.db" fs_compactable log_with_delete
           (data (db (world_of (Open env_ok "todo.db" fs_compactable)))) EACCES); [reflexivity|reflexivity|reflexivity|reflexivity|reflexivity|exact Hrep].
Defined.

(** [TaskRepo.Update] of a task whose id is already stored, on an open
    store, fails with the store's [ErrAlreadyExists] and changes nothing:
    it calls [PutObject], which never overwrites. *)
Theorem update_existing_task env gob_encode w task b v :
  locked (db w) = false -> closed (db w) = false -> gob_encode task = Ok b ->
  data (db w) !! FormatInt (domain.ID task) = Some v ->
  TaskRepo.Update env gob_encode task w = Done (Some (Passed ErrAlreadyExists)) w.
Proof.
  intros Hl Hc He Hk. unfold TaskRepo.Update, PutObject. rewrite He, Hl, Hc, Hk. reflexivity.
Qed.

Lemma update_existing_task_witness :
  locked (db w_hello) = false /\ closed (db w_hello) = false /\
  enc_title task_one = Ok (list_byte_of_string "buy milk") /\
  data (db w_hello) !! FormatInt (domain.ID task_one) = Some (list_byte_of_string "hello") /\
  TaskRepo.Update env_ok enc_title task_one w_hello = Done (Some (Passed ErrAlreadyExists)) w_hello.
Proof.
  do 4 (split; [reflexivity|]).
  apply (update_existing_task env_ok enc_title w_hello task_one (list_byte_of_string "buy milk")
           (list_byte_of_string "hello")); reflexivity.
Defined.

(** On an open store, [TaskRepo.Get] and [TaskRepo.Delete] of an id that is
    not stored return the repository's own [ErrNotFound]. *)
Theorem repo_missing_task env gob_decode w id :
  locked (db w) = false -> closed (db w) = false -> data (db w) !! FormatInt id = None ->
  TaskRepo.Get gob_decode id w = Done (inr RepoErrNotFound) w /\
  TaskRepo.Delete env id w = Done (Some RepoErrNotFound) w.
Proof.
  intros Hl Hc Hk. unfold TaskRepo.Get, TaskRepo.Delete, GetObject, DeleteObject.
  rewrite Hl, Hc, Hk. split; reflexivity.
Qed.

Lemma repo_missing_task_witness :
  locked (db w_hello) = false /\ closed (db w_hello) = false /\
  data (db w_hello) !! FormatInt 2 = None /\
  TaskRepo.Get dec_title 2 w_hello = Done (inr RepoErrNotFound) w_hello /\
  TaskRepo.Delete env_ok 2 w_hello = Done (Some RepoErrNotFound) w_hello.
Proof.
  do 3 (split; [reflexivity|]).
  apply repo_missing_task; reflexivity.
Defined.

(** On a closed store, [TaskRepo.Get], [Delete], [Insert] and [Update]
    return the store's [ErrClose] as it is, not a repository error. *)
Theorem repo_closed_store env gob_encode gob_decode w id task b :
  locked (db w) = false -> closed (db w) = true -> gob_encode task = Ok b ->
  TaskRepo.Get gob_decode id w = Done (inr (Passed ErrClose)) w /\
  TaskRepo.Delete env id w = Done (Some (Passed ErrClose)) w /\
  TaskRepo.Insert env gob_encode task w = Done (Some (Passed ErrClose)) w /\
  TaskRepo.Update env gob_encode task w = Done (Some (Passed ErrClose)) w.
Proof.
  intros Hl Hc He.
  unfold TaskRepo.Get, TaskRepo.Delete, TaskRepo.Insert, TaskRepo.Update, GetObject, DeleteObject, PutObject.
  rewrite He, Hl, Hc. repeat split.
Qed.

Lemma repo_closed_store_witness :
  locked (db w_hello_closed) = false /\ closed (db w_hello_closed) = true /\
  enc_title task_two = Ok (list_byte_of_string "walk") /\
  (TaskRepo.Get dec_title 2 w_hello_closed = Done (inr (Passed ErrClose)) w_hello_closed /\
   TaskRepo.Delete env_ok 2 w_hello_closed = Done (Some (Passed ErrClose)) w_hello_closed /\
   TaskRepo.Insert env_ok enc_title task_two w_hello_closed = Done (Some (Passed ErrClose)) w_hello_closed /\
   TaskRepo.Update env_ok enc_title task_two w_hello_closed = Done (Some (Passed ErrClose)) w_hello_closed).
Proof.
  do 3 (split; [reflexivity|]).
  apply (repo_closed_store env_ok enc_title dec_title w_hello_closed 2 task_two (list_byte_of_string "walk"));
    reflexivity.
Defined.

(** [TaskRepo.Insert] of a task whose id is not stored, on an open store,
    makes [TaskRepo.Get] of that id decode exactly the bytes the encoder
    produced, even when the append to the log failed. *)
Theorem insert_then_get env gob_encode gob_decode w task b r w' :
  locked (db w) = false -> closed (db w) = false -> gob_encode task = Ok b ->
  data (db w) !! FormatInt (domain.ID task) = None ->
  TaskRepo.Insert env gob_encode task w = Done r w' ->
  TaskRepo.Get gob_decode (domain.ID task) w'
  = match gob_decode b with
    | Ok t => Done (inl t) w'
    | Err e => Done (inr (Passed e)) w'
    end.
Proof.
  intros Hl Hc He Hk HI. unfold TaskRepo.Insert in HI. rewrite He in HI.
  destruct (PutObject env (FormatInt (domain.ID task)) b w) as [|r0 w0] eqn:HP; [discriminate|].
  assert (Hw : w0 = w') by (destruct r0; injection HI as _ <-; reflexivity).
  subst w0.
  destruct (put_new_key_visible_core env w (FormatInt (domain.ID task)) b r0 w' Hl Hc Hk HP) as [HG _].
  unfold TaskRepo.Get. rewrite HG. reflexivity.
Qed.

Lemma insert_then_get_witness :
  locked (db w_hello) = false /\ closed (db w_hello) = false /\
  enc_title task_two = Ok (list_byte_of_string "walk") /\
  data (db w_hello) !! FormatInt (domain.ID task_two) = None /\
  TaskRepo.Insert env_ok enc_title task_two w_hello
  = Done None (after (TaskRepo.Insert env_ok enc_title task_two w_hello) w_hello) /\
  TaskRepo.Get dec_title (domain.ID task_two) (after (TaskRepo.Insert env_ok enc_title task_two w_hello) w_hello)
  = Done (inl (domain.NewTask 1 "walk" "" false))
         (after (TaskRepo.Insert env_ok enc_title task_two w_hello) w_hello).
Proof.
  assert (HI : TaskRepo.Insert env_ok enc_title task_two w_hello
               = Done None (after (TaskRepo.Insert env_ok enc_title task_two w_hello) w_hello))
    by (vm_compute; reflexivity).
  do 4 (split; [reflexivity|]). split; [exact HI|].
  apply (insert_then_get env_ok enc_title dec_title w_hello task_two (list_byte_of_string "walk") None _);
    [reflexivity|reflexivity|reflexivity|reflexivity|exact HI].
Defined.

End Extras.
